(** * Market index comparison: the time-series pipeline of [app.py]

    A shallow embedding of the Streamlit script [app.py] and of the pandas
    operations it calls, over IEEE-754 binary64 numbers (Rocq's primitive
    floats, the [float64] of NumPy and pandas).

    - A pandas [Series] of prices is the list of its values; the date index
      plays no part in the transforms below.  A null entry is [nan].
    - Python exceptions are a [result]; what Streamlit renders is a log of
      [Element]s written by the script in order.
    - The pandas aggregates follow [pandas.core.nanops] (without the
      optional bottleneck package) and sum in the order of NumPy's
      pairwise summation.  The rolling standard deviation follows the
      online update of [pandas._libs.window.aggregations.roll_var].
    - The raw-data view lists, per selected index, the values of its
      normalized series; the alignment of the columns on their dates,
      which pads a column with nulls where it has no quote, is not
      modelled. *)

From Stdlib Require Import String Ascii.
From Stdlib Require Import Floats List ZArith Bool Lia.
From Stdlib Require Uint63 DecimalString.
Import ListNotations.

(* ================================================================== *)
(** * Definitions *)
(* ================================================================== *)

(** ** Python exceptions *)

Inductive exn : Type :=
| IndexError   (* "single positional indexer is out-of-bounds" *)
| KeyError.

Inductive result (A : Type) : Type :=
| Ok (a : A)
| Raise (e : exn).
Arguments Ok {A} a.
Arguments Raise {A} e.

(** ** pandas: the Series operations the script uses *)

Module Pandas.
Local Open Scope float_scope.

Definition Series : Type := list float.

Definition isna (x : float) : bool := is_nan x.
Definition notna (x : float) : bool := negb (is_nan x).

(** [Series.empty] *)
Definition empty (s : Series) : bool :=
  match s with [] => true | _ :: _ => false end.

(** [Series.iloc[0]] and [Series.iloc[-1]] *)
Definition iloc_first (s : Series) : result float :=
  match s with [] => Raise IndexError | x :: _ => Ok x end.

Definition iloc_last (s : Series) : result float :=
  match s with [] => Raise IndexError | x :: r => Ok (last r x) end.

(** [Series.ffill()]: a null takes the last valid value before it; nulls
    with nothing valid before them stay null. *)
Fixpoint ffill_from (prev : float) (s : Series) : Series :=
  match s with
  | [] => []
  | x :: r => if isna x then prev :: ffill_from prev r
              else x :: ffill_from x r
  end.

Definition ffill (s : Series) : Series := ffill_from nan s.

(** [Series.dropna()] *)
Definition dropna (s : Series) : Series := filter notna s.

(** [Series.fillna(v)] *)
Definition fillna (v : float) (s : Series) : Series :=
  map (fun x => if isna x then v else x) s.

(** [Series.pct_change()]: [s / s.shift(1) - 1]; the first entry has no
    predecessor and is null.  (The script only calls it on series that
    went through [dropna], so the optional pre-fill of nulls is moot.) *)
Fixpoint pct_from (prev : float) (s : Series) : Series :=
  match s with
  | [] => []
  | x :: r => (x / prev - 1) :: pct_from x r
  end.

Definition pct_change (s : Series) : Series :=
  match s with
  | [] => []
  | x :: r => nan :: pct_from x r
  end.

(** [numpy.cumprod] *)
Fixpoint cumprod_from (acc : float) (s : list float) : list float :=
  match s with
  | [] => []
  | x :: r => (acc * x) :: cumprod_from (acc * x) r
  end.

Definition np_cumprod (s : list float) : list float :=
  match s with
  | [] => []
  | x :: r => x :: cumprod_from x r
  end.

Definition putmask (s : list float) (mask : list bool) (v : float)
  : list float :=
  map (fun xm : float * bool => if snd xm then v else fst xm)
      (combine s mask).

(** [Series.cumprod()] ([skipna=True]): nulls are multiplied as 1 and
    written back as null ([nanops.na_accum_func]). *)
Definition cumprod (s : Series) : Series :=
  let mask := map isna s in
  let vals := putmask s mask 1 in
  putmask (np_cumprod vals) mask nan.

Definition of_nat (n : nat) : float :=
  of_uint63 (Uint63.of_Z (Z.of_nat n)).

(** *** Sums: [numpy.add.reduce] on a float64 array

    NumPy sums pairwise.  Fewer than 8 numbers are added from left to
    right.  Up to 128 numbers are added in 8 interleaved lanes; the lanes
    are then combined as a tree and the last [n mod 8] numbers added one
    by one.  A longer array is split in two at a multiple of 8. *)

Definition lanes : Type :=
  (float * float * float * float * float * float * float * float)%type.

(** [r[k] += a[i + k]] for every whole block of 8 that is left. *)
Fixpoint add_blocks (r : lanes) (a : list float) : lanes * list float :=
  match a with
  | a0 :: a1 :: a2 :: a3 :: a4 :: a5 :: a6 :: a7 :: rest =>
      let '(r0, r1, r2, r3, r4, r5, r6, r7) := r in
      add_blocks (r0 + a0, r1 + a1, r2 + a2, r3 + a3,
                  r4 + a4, r5 + a5, r6 + a6, r7 + a7) rest
  | _ => (r, a)
  end.

(** The two unrolled cases of [pairwise_sum]: [n < 8] and [8 <= n]. *)
Definition sum_unrolled (a : list float) : float :=
  match a with
  | a0 :: a1 :: a2 :: a3 :: a4 :: a5 :: a6 :: a7 :: rest =>
      let '(r, tail) := add_blocks (a0, a1, a2, a3, a4, a5, a6, a7) rest in
      let '(r0, r1, r2, r3, r4, r5, r6, r7) := r in
      fold_left add tail
        (((r0 + r1) + (r2 + r3)) + ((r4 + r5) + (r6 + r7)))
  | _ => fold_left add a 0
  end.

(** [pairwise_sum]; every call halves the array, so [fuel = n] is more
    than the recursion needs (see [pairwise_sum_fuel]). *)
Fixpoint pairwise_sum (fuel : nat) (a : list float) : float :=
  let n := length a in
  if Nat.leb n 128 then sum_unrolled a
  else
    match fuel with
    | O => sum_unrolled a
    | S fuel' =>
        let n2 := (n / 2 - (n / 2) mod 8)%nat in
        pairwise_sum fuel' (firstn n2 a) + pairwise_sum fuel' (skipn n2 a)
    end.

(** [ndarray.sum()]: the reduction starts from the identity 0.  (A start
    from -0 would differ only when every addend is -0.) *)
Definition sum (a : list float) : float :=
  0 + pairwise_sum (length a) a.

(** [Series.mean()] ([nanops.nanmean], [skipna=True]): nulls are summed
    as 0 in their place and left out of the count. *)
Definition mean (s : Series) : float :=
  let mask := map isna s in
  let values := putmask s mask 0 in
  let count := length (dropna s) in
  if Nat.ltb 0 count then sum values / of_nat count else nan.

(** [Series.var()] ([nanops.nanvar], [skipna=True], [ddof=1]): the sum of
    squared deviations from the mean over [count - 1]; null when there
    are fewer than two valid observations. *)
Definition var (s : Series) : float :=
  let mask := map isna s in
  let count := length (dropna s) in
  if Nat.leb count 1 then nan
  else
    let values := putmask s mask 0 in
    let avg := sum values / of_nat count in
    let sqr := putmask (map (fun x => (avg - x) * (avg - x)) values) mask 0 in
    sum sqr / (of_nat count - 1).

(** [Series.std()] *)
Definition std (s : Series) : float := PrimFloat.sqrt (var s).

(** *** Rolling variance: [window.aggregations.roll_var]

    pandas does not recompute each window.  It keeps a running count,
    mean and sum of squared deviations (Welford's update with Kahan
    compensation), removes the observation that leaves the window and
    adds the one that enters.  [nobs] and [num_consecutive_same_value]
    hold exact small integers. *)

Record var_state : Type := {
  nobs : nat;
  mean_x : float;
  ssqdm_x : float;
  compensation_add : float;
  compensation_remove : float;
  num_consecutive_same_value : nat;
  prev_value : float
}.

Definition add_var (st : var_state) (val : float) : var_state :=
  if isna val then st
  else
    let nobs' := S (nobs st) in
    let same :=
      if val =? prev_value st then S (num_consecutive_same_value st)
      else 1%nat in
    let prev_mean := mean_x st - compensation_add st in
    let y := val - compensation_add st in
    let t := y - mean_x st in
    let compensation := t + mean_x st - y in
    let delta := t in
    let mean' := mean_x st + delta / of_nat nobs' in
    {| nobs := nobs';
       mean_x := mean';
       ssqdm_x := ssqdm_x st + (val - prev_mean) * (val - mean');
       compensation_add := compensation;
       compensation_remove := compensation_remove st;
       num_consecutive_same_value := same;
       prev_value := val |}.

Definition remove_var (st : var_state) (val : float) : var_state :=
  if isna val then st
  else
    let nobs' := (nobs st - 1)%nat in
    match nobs' with
    | O =>
        {| nobs := nobs';
           mean_x := 0;
           ssqdm_x := 0;
           compensation_add := compensation_add st;
           compensation_remove := compensation_remove st;
           num_consecutive_same_value := num_consecutive_same_value st;
           prev_value := prev_value st |}
    | S _ =>
        let prev_mean := mean_x st - compensation_remove st in
        let y := val - compensation_remove st in
        let t := y - mean_x st in
        let compensation := t + mean_x st - y in
        let delta := t in
        let mean' := mean_x st - delta / of_nat nobs' in
        {| nobs := nobs';
           mean_x := mean';
           ssqdm_x := ssqdm_x st - (val - prev_mean) * (val - mean');
           compensation_add := compensation_add st;
           compensation_remove := compensation;
           num_consecutive_same_value := num_consecutive_same_value st;
           prev_value := prev_value st |}
    end.

(** [calc_var] with [ddof = 1] *)
Definition calc_var (minp : nat) (st : var_state) : float :=
  if Nat.leb minp (nobs st) && Nat.ltb 1 (nobs st) then
    if Nat.eqb (nobs st) 1
       || Nat.leb (nobs st) (num_consecutive_same_value st)
    then 0
    else ssqdm_x st / (of_nat (nobs st) - 1)
  else nan.

(** The state a window starts from. *)
Definition fresh_var (first : float) : var_state :=
  {| nobs := 0;
     mean_x := 0;
     ssqdm_x := 0;
     compensation_add := 0;
     compensation_remove := 0;
     num_consecutive_same_value := 0;
     prev_value := first |}.

(** The entries [a .. b - 1] of an array. *)
Definition span (values : list float) (a b : nat) : list float :=
  firstn (b - a) (skipn a values).

(** The loop of [roll_var] from position [i] on, for the bounds of a
    fixed window of [w] entries: [start = max 0 (i + 1 - w)] and
    [end = i + 1].  [st] is the state left by position [i - 1]. *)
Fixpoint roll_var_from (w minp : nat) (values : list float)
  (i todo : nat) (st : var_state) : list float :=
  match todo with
  | O => []
  | S todo' =>
      let s := (i + 1 - w)%nat in
      let e := (i + 1)%nat in
      let st' :=
        if Nat.eqb i 0 || Nat.leb i s then
          (* the first window, or one that does not overlap the last *)
          fold_left add_var (span values s e) (fresh_var (nth s values nan))
        else
          fold_left add_var (span values i e)
            (fold_left remove_var (span values (i - w) s) st) in
      calc_var minp st' :: roll_var_from w minp values (S i) todo' st'
  end.

Definition roll_var (w minp : nat) (values : list float) : list float :=
  roll_var_from w (Nat.max minp 1) values 0 (length values)
    (fresh_var nan).

(** [zsqrt]: the square root, with 0 for a negative argument. *)
Definition zsqrt (x : float) : float :=
  if x <? 0 then 0 else PrimFloat.sqrt x.

(** [Series.rolling(window=w).std()]: [min_periods] defaults to the
    window size; infinities are turned to null before the roll. *)
Definition rolling_std (w : nat) (s : Series) : Series :=
  let values := map (fun x => if is_infinity x then nan else x) s in
  map zsqrt (roll_var w w values).
End Pandas.
Import Pandas.

(** ** Python: fixed-point formatting, [f"{x:.2f}"] and [f"{x:.3f}"] *)

Module Fmt.
Local Open Scope Z_scope.

(** The nearest integer to [num / den] ([den > 0]), ties to even: the
    correctly rounded conversion CPython applies to the exact value. *)
Definition round_half_even (num den : Z) : Z :=
  let q := num / den in
  let r := num mod den in
  match 2 * r ?= den with
  | Lt => q
  | Gt => q + 1
  | Eq => if Z.even q then q else q + 1
  end.

(** [m * 2^e * 10^d], rounded to an integer. *)
Definition scaled (d : nat) (m : positive) (e : Z) : Z :=
  let num := Z.pos m * 10 ^ Z.of_nat d in
  if 0 <=? e then num * 2 ^ e else round_half_even num (2 ^ (- e)).

Definition digit (k : Z) : string :=
  String (ascii_of_nat (48 + Z.to_nat k)) EmptyString.

(** The [d] low decimal digits of [n], zero padded. *)
Fixpoint low_digits (d : nat) (n : Z) : string :=
  match d with
  | O => EmptyString
  | S d' => String.append (low_digits d' (n / 10)) (digit (n mod 10))
  end.

Definition string_of_Z (n : Z) : string :=
  DecimalString.NilZero.string_of_uint (N.to_uint (Z.to_N n)).

(** [n] hundredths (thousandths, ...) written with [d] decimals. *)
Definition fixed (d : nat) (n : Z) : string :=
  let p := 10 ^ Z.of_nat d in
  String.append (string_of_Z (n / p))
    (match d with
     | O => EmptyString
     | S _ => String.append "." (low_digits d (n mod p))
     end).

Definition sign (s : bool) : string :=
  if s then "-"%string else EmptyString.

(** [format(x, ".df")] *)
Definition format_f (d : nat) (x : float) : string :=
  match Prim2SF x with
  | S754_nan => "nan"%string
  | S754_infinity s => String.append (sign s) "inf"
  | S754_zero s => String.append (sign s) (fixed d 0)
  | S754_finite s m e => String.append (sign s) (fixed d (scaled d m e))
  end.
End Fmt.

(** ** yfinance: the frame [yf.download] hands back *)

(** Column labels are plain names or, for a [MultiIndex], pairs
    [(field, ticker)]; every column holds one value per row. *)
Inductive DataFrame : Type :=
| Index (columns : list (string * Series))
| MultiIndex (columns : list ((string * string) * Series)).

(** [df.empty]: no column or no row. *)
Definition df_empty (df : DataFrame) : bool :=
  match df with
  | Index [] | MultiIndex [] => true
  | Index ((_, col) :: _) | MultiIndex ((_, col) :: _) => empty col
  end.

Fixpoint get_column (name : string) (columns : list (string * Series))
  : option Series :=
  match columns with
  | [] => None
  | (k, col) :: r => if String.eqb k name then Some col else get_column name r
  end.

Fixpoint get_column2 (key : string * string)
  (columns : list ((string * string) * Series)) : option Series :=
  match columns with
  | [] => None
  | ((a, b), col) :: r =>
      if String.eqb a (fst key) && String.eqb b (snd key) then Some col
      else get_column2 key r
  end.

(** [repr] of [df.columns.tolist()] *)
Definition quoted (s : string) : string :=
  String.append "'" (String.append s "'").

Definition repr_list (items : list string) : string :=
  String.append "[" (String.append (String.concat ", " items) "]").

Definition columns_tolist (df : DataFrame) : string :=
  match df with
  | Index columns => repr_list (map (fun kc => quoted (fst kc)) columns)
  | MultiIndex columns =>
      repr_list
        (map (fun kc : (string * string) * Series =>
                String.append "("
                  (String.append (quoted (fst (fst kc)))
                     (String.append ", "
                        (String.append (quoted (snd (fst kc))) ")"))))
             columns)
  end.

(** ** Streamlit: what the script renders, in order *)

Record Trace : Type := { name : string; y : Series }.

Record SummaryRow : Type := {
  row_Index : string;
  Start_Price : string;
  End_Price : string;
  Total_Return : string;
  Avg_Daily_Return : string;
  Volatility : string
}.

(** [st_dataframe_raw] holds the columns of the raw-data view: for each
    selected index its normalized values, in order.  pandas lays the
    columns out on the union of their dates and pads with nulls; the
    dates are not part of the model, so each column is as long as its
    own series. *)
Inductive Element : Type :=
| st_subheader (text : string)
| st_warning (text : string)
| st_error (text : string)
| st_plotly_chart (title : string) (traces : list Trace)
| st_dataframe (rows : list SummaryRow)
| st_dataframe_raw (columns : list (string * Series))
| st_download_button (label : string).

(** A script step: it extends the page rendered so far and either returns
    a value or stops on an exception (what was rendered stays). *)
Definition App (A : Type) : Type :=
  list Element -> result A * list Element.

Definition ret {A} (a : A) : App A := fun page => (Ok a, page).

Definition bind {A B} (m : App A) (k : A -> App B) : App B :=
  fun page =>
    match m page with
    | (Ok a, page') => k a page'
    | (Raise e, page') => (Raise e, page')
    end.

Definition emit (e : Element) : App unit := fun page => (Ok tt, page ++ [e]).

Definition lift {A} (r : result A) : App A := fun page => (r, page).

Declare Scope app_scope.
Delimit Scope app_scope with app.
Notation "x <- m ;; k" := (bind m (fun x => k))
  (at level 61, m at next level, right associativity) : app_scope.
Notation "m ;; k" := (bind m (fun _ => k))
  (at level 61, right associativity) : app_scope.

(** [for a in l: s = body(a, s)] *)
Fixpoint for_each {A S} (l : list A) (body : A -> S -> App S) (s : S)
  : App S :=
  match l with
  | [] => ret s
  | a :: r => bind (body a s) (for_each r body)
  end.

(** [[f(a) for a in l]] *)
Fixpoint collect {A B} (l : list A) (f : A -> App B) : App (list B) :=
  match l with
  | [] => ret []
  | a :: r => bind (f a) (fun b => bind (collect r f) (fun bs => ret (b :: bs)))
  end.

(** ** Python dictionaries (insertion ordered) keyed by strings *)

Fixpoint dict_get {V} (d : list (string * V)) (key : string) : result V :=
  match d with
  | [] => Raise KeyError
  | (k, v) :: r => if String.eqb k key then Ok v else dict_get r key
  end.

Fixpoint dict_set {V} (key : string) (v : V) (d : list (string * V))
  : list (string * V) :=
  match d with
  | [] => [(key, v)]
  | (k, v') :: r =>
      if String.eqb k key then (k, v) :: r else (k, v') :: dict_set key v r
  end.

(** ** [app.py] *)

Definition INDEX_TICKERS : list (string * string) :=
  [ ("S&P 500", "^GSPC");
    ("NASDAQ", "^IXIC");
    ("Dow Jones", "^DJI");
    ("Russell 2000", "^RUT");
    ("NYSE Composite", "^NYA") ]%string.

(** [normalize_series]: [(series / series.iloc[0]) * 100] *)
Definition normalize_series (series : Series) : result Series :=
  match iloc_first series with
  | Raise e => Raise e
  | Ok first => Ok (map (fun x => (x / first * 100)%float) series)
  end.

(** Chart 2: [returns = series.pct_change().fillna(0)] and
    [cum_returns = (1 + returns).cumprod() - 1] *)
Definition returns (series : Series) : Series :=
  fillna 0%float (pct_change series).

Definition cum_returns (series : Series) : Series :=
  map (fun c => (c - 1)%float)
      (cumprod (map (fun r => (1 + r)%float) (returns series))).

(** Chart 3: [daily_returns = series.pct_change().fillna(0)] and
    [rolling_vol = daily_returns.rolling(window=20).std() * 100] *)
Definition rolling_vol (series : Series) : Series :=
  let daily_returns := fillna 0%float (pct_change series) in
  map (fun v => (v * 100)%float) (rolling_std 20 daily_returns).

(** The summary table: the numbers of one row, then the row as written. *)
Record Stats : Type := {
  start_price : float;
  end_price : float;
  total_return : float;
  avg_daily_return : float;
  volatility : float
}.

Definition summary_stats (series : Series) : result Stats :=
  match iloc_first series with
  | Raise e => Raise e
  | Ok start_price =>
      match iloc_last series with
      | Raise e => Raise e
      | Ok end_price =>
          let total_return := ((end_price / start_price - 1) * 100)%float in
          let daily_returns := dropna (pct_change series) in
          let avg_daily_return := (mean daily_returns * 100)%float in
          let volatility := (std daily_returns * 100)%float in
          Ok {| start_price := start_price;
                end_price := end_price;
                total_return := total_return;
                avg_daily_return := avg_daily_return;
                volatility := volatility |}
      end
  end.

Definition summary_row (index : string) (st : Stats) : SummaryRow :=
  {| row_Index := index;
     Start_Price := Fmt.format_f 2 (start_price st);
     End_Price := Fmt.format_f 2 (end_price st);
     Total_Return := Fmt.format_f 2 (total_return st);
     Avg_Daily_Return := Fmt.format_f 3 (avg_daily_return st);
     Volatility := Fmt.format_f 3 (volatility st) |}.

Section Script.
(** [yf.download(ticker, start=start_date, end=end_date)] for the dates
    picked in the sidebar. *)
Variable download : string -> DataFrame.

Local Open Scope app_scope.
Local Open Scope string_scope.

Definition fetch_data (ticker : string) : App Series :=
  let df := download ticker in
  if df_empty df then
    emit (st_warning ("No data returned for " ++ ticker ++ ".")) ;;
    ret []
  else
    match df with
    | MultiIndex columns =>
        match get_column2 ("Close", ticker) columns with
        | Some close => ret (dropna (ffill close))
        | None =>
            emit (st_error ("Multi-index 'Close' not found for " ++ ticker
                            ++ ". Columns: " ++ columns_tolist df)) ;;
            ret []
        end
    | Index columns =>
        match get_column "Adj Close" columns with
        | Some adj_close => ret (dropna (ffill adj_close))
        | None =>
            match get_column "Close" columns with
            | Some close => ret (dropna (ffill close))
            | None =>
                emit (st_error ("No valid price column for " ++ ticker
                                ++ ". Columns: " ++ columns_tolist df)) ;;
                ret []
            end
        end
    end.

(** The body of [for index in selected_indices]; the loop carries the
    traces of [fig] and the dictionary [price_data]. *)
Definition index_body (index : string)
  (st : list Trace * list (string * Series))
  : App (list Trace * list (string * Series)) :=
  ticker <- lift (dict_get INDEX_TICKERS index) ;;
  data <- fetch_data ticker ;;
  if empty data then ret st
  else
    norm_data <- lift (normalize_series data) ;;
    ret ((fst st ++ [ {| name := index; y := norm_data |} ])%list,
         dict_set index data (snd st)).

Definition cum_trace (item : string * Series) : Trace :=
  {| name := fst item;
     y := map (fun c => (c * 100)%float) (cum_returns (snd item)) |}.

Definition vol_trace (item : string * Series) : Trace :=
  {| name := fst item; y := rolling_vol (snd item) |}.

Definition summary_item (item : string * Series) : App SummaryRow :=
  st <- lift (summary_stats (snd item)) ;;
  ret (summary_row (fst item) st).

(** One entry of the dictionary comprehension behind "Show raw data". *)
Definition raw_item (index : string) : App (string * Series) :=
  ticker <- lift (dict_get INDEX_TICKERS index) ;;
  data <- fetch_data ticker ;;
  norm <- lift (normalize_series data) ;;
  ret (index, norm).

Definition main (selected_indices : list string) (show_raw : bool)
  : App unit :=
  match selected_indices with
  | [] =>
      emit (st_warning
              "Please select at least one index to display the chart.")
  | _ :: _ =>
      emit (st_subheader "Normalized Performance Chart") ;;
      st <- for_each selected_indices index_body ([], []) ;;
      let fig := fst st in
      let price_data := snd st in
      emit (st_plotly_chart "Normalized Market Index Performance" fig) ;;
      emit (st_subheader "Cumulative Returns Chart") ;;
      emit (st_plotly_chart "Cumulative Returns Since Start Date"
              (map cum_trace price_data)) ;;
      emit (st_subheader "Rolling 20-Day Volatility") ;;
      emit (st_plotly_chart "20-Day Rolling Volatility"
              (map vol_trace price_data)) ;;
      emit (st_subheader "Performance Summary Table") ;;
      summary_data <- collect price_data summary_item ;;
      emit (st_dataframe summary_data) ;;
      emit (st_download_button "Download Summary as CSV") ;;
      if show_raw then
        combined <- collect selected_indices raw_item ;;
        emit (st_dataframe_raw combined) ;;
        emit (st_download_button "Download Normalized Data as CSV")
      else ret tt
  end.

(** A run of the script on an empty page. *)
Definition run (selected_indices : list string) (show_raw : bool)
  : result unit * list Element :=
  main selected_indices show_raw [].
End Script.

(** ** What the page shows *)

Definition is_notice (e : Element) : bool :=
  match e with
  | st_warning _ | st_error _ => true
  | _ => false
  end.

(** The warnings and errors on a page. *)
Definition notices (page : list Element) : list Element :=
  filter is_notice page.

(** The names plotted in the chart titled [title]. *)
Fixpoint chart_names (title : string) (page : list Element) : list string :=
  match page with
  | [] => []
  | st_plotly_chart t traces :: r =>
      if String.eqb t title then map name traces else chart_names title r
  | _ :: r => chart_names title r
  end.

(** The rows of the summary table, when it was rendered. *)
Fixpoint summary_table (page : list Element) : option (list SummaryRow) :=
  match page with
  | [] => None
  | st_dataframe rows :: _ => Some rows
  | _ :: r => summary_table r
  end.

(** The columns of the raw normalized-data view, when it was rendered. *)
Fixpoint raw_table (page : list Element) : option (list (string * Series)) :=
  match page with
  | [] => None
  | st_dataframe_raw columns :: _ => Some columns
  | _ :: r => raw_table r
  end.

(** ** Vocabulary of the specification *)

(** A price is a finite number; a [CleanSeries] holds prices only (what
    [ffill().dropna()] leaves of quotes that are each a price or null). *)
Definition CleanSeries (s : Series) : Prop := forallb is_finite s = true.

(** The number of leading entries with no prior value to fill from. *)
Fixpoint leading_nulls (raw : Series) : nat :=
  match raw with
  | [] => 0
  | x :: r => if isna x then S (leading_nulls r) else 0
  end.

(** The per-period returns [price[i] / price[i-1] - 1] for [i >= 1]. *)
Definition period_returns (s : Series) : Series :=
  map (fun i => (nth i s nan / nth (i - 1) s nan - 1)%float)
      (seq 1 (length s - 1)).

(** [(1 + r[0]) * (1 + r[1]) * ... * (1 + r[i])], compounded one period
    after the other. *)
Fixpoint compound (r : Series) (i : nat) : float :=
  match i with
  | O => (1 + nth 0 r nan)%float
  | S j => (compound r j * (1 + nth (S j) r nan))%float
  end.




(** ** Reading binary64 values through their IEEE-754 specification *)

Definition has_sign (s : bool) (x : spec_float) : bool :=
  match x with
  | S754_zero s' | S754_infinity s' | S754_finite s' _ _ => Bool.eqb s s'
  | S754_nan => false
  end.

Definition not_nan (x : spec_float) : bool :=
  match x with S754_nan => false | _ => true end.


Definition is_zero_SF (x : spec_float) : bool :=
  match x with S754_zero _ => true | _ => false end.

Definition finite_SF (x : spec_float) : bool :=
  match x with S754_zero _ | S754_finite _ _ _ => true | _ => false end.

(** ** Inputs used in the examples *)

(** A download that answers each ticker from a table of [Close] columns
    (the [MultiIndex] shape) and has no data for any other ticker. *)
Definition download_of (closes : list (string * Series)) (ticker : string)
  : DataFrame :=
  match get_column ticker closes with
  | Some close => MultiIndex [ (("Close"%string, ticker), close) ]
  | None => MultiIndex []
  end.


(** ** Vocabulary for a run of the script *)

(** The series [fetch_data] returns for the ticker of a selected index,
    and what it renders while doing so. *)
Definition fetched (download : string -> DataFrame) (index : string)
  : Series :=
  match dict_get INDEX_TICKERS index with
  | Ok ticker =>
      match fst (fetch_data download ticker []) with
      | Ok data => data
      | Raise _ => []
      end
  | Raise _ => []
  end.

Definition fetch_notices (download : string -> DataFrame) (index : string)
  : list Element :=
  match dict_get INDEX_TICKERS index with
  | Ok ticker => snd (fetch_data download ticker [])
  | Raise _ => []
  end.

Definition has_data (download : string -> DataFrame) (index : string)
  : bool :=
  negb (empty (fetched download index)).

(** The page of a run up to the summary download button: the notices of
    the fetches, the three charts and the summary table. *)
Definition charts_and_summary (rendered : list Element) (fig : list Trace)
  (price_data : list (string * Series)) (rows : list SummaryRow)
  : list Element :=
  st_subheader "Normalized Performance Chart"
  :: rendered
  ++ [ st_plotly_chart "Normalized Market Index Performance" fig;
       st_subheader "Cumulative Returns Chart";
       st_plotly_chart "Cumulative Returns Since Start Date"
         (map cum_trace price_data);
       st_subheader "Rolling 20-Day Volatility";
       st_plotly_chart "20-Day Rolling Volatility"
         (map vol_trace price_data);
       st_subheader "Performance Summary Table";
       st_dataframe rows;
       st_download_button "Download Summary as CSV" ].

(** What the script does after the summary when "Show raw data" is
    ticked. *)
Definition raw_view (download : string -> DataFrame)
  (selected_indices : list string) : App unit :=
  bind (collect selected_indices (raw_item download))
    (fun combined =>
       bind (emit (st_dataframe_raw combined))
         (fun _ =>
            emit (st_download_button "Download Normalized Data as CSV"))).

(** The decimal digits. *)
Definition is_digit (c : ascii) : bool :=
  let n := nat_of_ascii c in Nat.leb 48 n && Nat.leb n 57.

Fixpoint all_digits (s : string) : bool :=
  match s with
  | EmptyString => true
  | String c r => is_digit c && all_digits r
  end.


(* ================================================================== *)
(** * Properties *)
(* ================================================================== *)

(** ** IEEE-754 facts about binary64 *)

Section Binary64.
Local Open Scope float_scope.

Lemma is_nan_SF x : is_nan x = negb (not_nan (Prim2SF x)).
Proof.
  unfold is_nan. rewrite FloatAxioms.eqb_spec. unfold SFeqb.
  destruct (Prim2SF x) as [s|s| |s m e]; simpl; try reflexivity.
  - destruct s; reflexivity.
  - destruct s; rewrite Z.compare_refl, Pos.compare_cont_refl; reflexivity.
Qed.

Lemma is_zero_eqb x : (x =? 0) = is_zero_SF (Prim2SF x).
Proof.
  rewrite FloatAxioms.eqb_spec. change (Prim2SF 0) with (S754_zero false).
  destruct (Prim2SF x) as [s|s| |s m e]; simpl; try reflexivity;
    destruct s; reflexivity.
Qed.

Lemma is_finite_SF x : is_finite x = finite_SF (Prim2SF x).
Proof.
  unfold is_finite, is_infinity. rewrite is_nan_SF, FloatAxioms.eqb_spec, abs_spec.
  change (Prim2SF infinity) with (S754_infinity false).
  destruct (Prim2SF x) as [s|s| |s m e]; simpl; reflexivity.
Qed.

(** Rounding never leaves the sign or produces a null. *)
Lemma shr_1_nonneg mrs : (0 <= shr_m mrs)%Z -> (0 <= shr_m (shr_1 mrs))%Z.
Proof.
  destruct mrs as [m r s]; simpl.
  destruct m as [|p|p]; simpl; try lia; destruct p; simpl; lia.
Qed.

Lemma iter_pos_inv {A} (P : A -> Prop) (f : A -> A) :
  (forall x, P x -> P (f x)) -> forall p x, P x -> P (SpecFloat.iter_pos f p x).
Proof.
  intros Hf p. induction p as [p IH|p IH|]; intros x Hx; simpl; auto.
Qed.

Lemma shr_fexp_nonneg m e l :
  (0 <= m)%Z -> (0 <= shr_m (fst (shr_fexp prec emax m e l)))%Z.
Proof.
  intros Hm. unfold shr_fexp, shr.
  assert (H0 : (0 <= shr_m (shr_record_of_loc m l))%Z)
    by (destruct l as [|[]]; simpl; exact Hm).
  destruct (_ - e)%Z; simpl; auto.
  apply (iter_pos_inv (fun r => (0 <= shr_m r)%Z)); auto using shr_1_nonneg.
Qed.

Lemma round_nearest_even_nonneg m l :
  (0 <= m)%Z -> (0 <= round_nearest_even m l)%Z.
Proof.
  intros Hm. destruct l as [|[]]; simpl; try lia.
  destruct (Z.even m); lia.
Qed.

Lemma binary_round_aux_sign sx mx ex lx :
  (0 <= mx)%Z -> has_sign sx (binary_round_aux prec emax sx mx ex lx) = true.
Proof.
  intros Hm. unfold binary_round_aux.
  pose proof (shr_fexp_nonneg mx ex lx Hm) as H1.
  destruct (shr_fexp prec emax mx ex lx) as [mrs' e']. simpl in H1.
  pose proof (shr_fexp_nonneg _ e' loc_Exact
                (round_nearest_even_nonneg _ (loc_of_shr_record mrs') H1)) as H2.
  destruct (shr_fexp prec emax _ e' loc_Exact) as [mrs'' e'']. simpl in H2.
  destruct (shr_m mrs'') as [|p|p]; simpl.
  - apply eqb_reflx.
  - destruct (_ <=? _)%Z; simpl; apply eqb_reflx.
  - lia.
Qed.

Lemma has_sign_not_nan s x : has_sign s x = true -> not_nan x = true.
Proof. destruct x; simpl; auto. Qed.

Lemma binary_round_sign sx mx ex :
  has_sign sx (binary_round prec emax sx mx ex) = true.
Proof.
  unfold binary_round. destruct (shl_align _ _ _) as [mz ez].
  apply binary_round_aux_sign. lia.
Qed.

Lemma binary_normalize_not_nan m e sz :
  not_nan (binary_normalize prec emax m e sz) = true.
Proof.
  destruct m; simpl; auto; eapply has_sign_not_nan, binary_round_sign.
Qed.

(** [x / x] is exactly 1 for a finite non-zero [x]. *)
Lemma SFdiv_self s m e :
  SF64div (S754_finite s m e) (S754_finite s m e) = Prim2SF 1.
Proof.
  unfold SF64div, SFdiv, SFdiv_core_binary.
  replace (Z.sub (Z.add (Zdigits2 (Zpos m)) e) (Z.add (Zdigits2 (Zpos m)) e)) with 0%Z by lia.
  replace (Z.sub e e) with 0%Z by lia.
  change (Z.min (fexp prec emax 0) 0) with (-53)%Z.
  change (Z.sub 0 (-53)) with 53%Z. cbv iota beta.
  rewrite Z.shiftl_mul_pow2 by lia.
  assert (H : Z.div_eucl (Z.pos m * 2 ^ 53) (Z.pos m) = ((2^53)%Z, 0%Z)).
  { generalize (Z_div_mult_full (2^53) (Z.pos m)), (Z_mod_mult (2^53) (Z.pos m)).
    unfold Z.div, Z.modulo. rewrite (Z.mul_comm (2^53)).
    destruct (Z.div_eucl _ _) as [q r]. intros A B. rewrite A, B by lia. reflexivity. }
  rewrite H.
  assert (L : new_location (Z.pos m) 0 = loc_Exact).
  { unfold new_location. destruct (Z.even _); reflexivity. }
  rewrite L. destruct s; vm_compute; reflexivity.
Qed.

Lemma div_self x : is_finite x = true -> (x =? 0) = false -> x / x = 1.
Proof.
  rewrite is_finite_SF, is_zero_eqb. intros Hf Hz.
  apply Prim2SF_inj. rewrite div_spec.
  destruct (Prim2SF x) as [s|s| |s m e]; try discriminate.
  apply SFdiv_self.
Qed.

(** A quotient of finite numbers is null only as 0/0. *)
Lemma SFdiv_finite x y :
  finite_SF x = true -> finite_SF y = true ->
  not_nan (SF64div x y) = negb (is_zero_SF x && is_zero_SF y).
Proof.
  destruct x as [sx|sx| |sx mx ex], y as [sy|sy| |sy my ey];
    try discriminate; intros _ _; simpl; try reflexivity.
  unfold SFdiv_core_binary.
  set (m' := match _ with Zpos _ => _ | Z0 => _ | Zneg _ => _ end).
  assert (Hm' : (0 <= m')%Z).
  { subst m'. destruct (_ - _ - _)%Z; try lia.
    rewrite Z.shiftl_mul_pow2 by lia. apply Z.mul_nonneg_nonneg; lia. }
  pose proof (Z.div_pos m' (Z.pos my) Hm' ltac:(lia)) as Hq.
  unfold Z.div in Hq. destruct (Z.div_eucl m' (Z.pos my)) as [q r].
  eapply has_sign_not_nan, binary_round_aux_sign; exact Hq.
Qed.

Lemma SFsub_one_not_nan x :
  not_nan (SF64sub x (Prim2SF 1)) = not_nan x.
Proof.
  change (Prim2SF 1) with (S754_finite false 4503599627370496 (-52)).
  destruct x as [sx|sx| |sx mx ex]; simpl; try reflexivity.
  apply binary_normalize_not_nan.
Qed.

Lemma SFadd_one_not_nan x :
  not_nan (SF64add (Prim2SF 1) x) = not_nan x.
Proof.
  change (Prim2SF 1) with (S754_finite false 4503599627370496 (-52)).
  destruct x as [sx|sx| |sx mx ex]; simpl; try reflexivity.
  apply binary_normalize_not_nan.
Qed.

Lemma pct_nan x y :
  is_finite x = true -> is_finite y = true ->
  is_nan (x / y - 1) = (x =? 0) && (y =? 0).
Proof.
  rewrite !is_finite_SF, !is_zero_eqb, is_nan_SF. intros Hx Hy.
  rewrite sub_spec, SFsub_one_not_nan, div_spec, SFdiv_finite by assumption.
  apply negb_involutive.
Qed.

Lemma add_one_nan r : is_nan (1 + r) = is_nan r.
Proof. now rewrite !is_nan_SF, add_spec, SFadd_one_not_nan. Qed.

(** Zero absorbs every finite factor, and [0 - 1] is [-1]. *)
Lemma mul_zero_r c :
  is_finite c = true -> (c * 0 =? 0) = true.
Proof.
  rewrite is_finite_SF, is_zero_eqb, mul_spec.
  change (Prim2SF 0) with (S754_zero false).
  destruct (Prim2SF c); try discriminate; reflexivity.
Qed.

Lemma mul_zero_l z f :
  (z =? 0) = true -> is_finite f = true -> (z * f =? 0) = true.
Proof.
  rewrite is_finite_SF, !is_zero_eqb, mul_spec.
  destruct (Prim2SF z); try discriminate;
    destruct (Prim2SF f); try discriminate; reflexivity.
Qed.

Lemma zero_sub_one z : (z =? 0) = true -> z - 1 = -1.
Proof.
  rewrite is_zero_eqb. intros Hz. apply Prim2SF_inj. rewrite sub_spec.
  destruct (Prim2SF z); try discriminate. reflexivity.
Qed.




End Binary64.

(** ** Series operations *)

Lemma notna_nan : notna nan = false.
Proof. reflexivity. Qed.

Lemma notna_is_nan x : notna x = true <-> is_nan x = false.
Proof. unfold notna. destruct (is_nan x); simpl; intuition congruence. Qed.

Lemma is_finite_notna x : is_finite x = true -> notna x = true.
Proof.
  unfold notna. rewrite is_finite_SF, is_nan_SF.
  destruct (Prim2SF x); simpl; congruence.
Qed.

Lemma CleanSeries_cons x s :
  CleanSeries (x :: s) <-> is_finite x = true /\ CleanSeries s.
Proof. unfold CleanSeries. simpl. apply andb_true_iff. Qed.

Lemma CleanSeries_nth s i :
  CleanSeries s -> i < length s -> is_finite (nth i s nan) = true.
Proof.
  revert i. induction s as [|x s IH]; intros i Hs Hi; simpl in Hi; [lia|].
  apply CleanSeries_cons in Hs as [Hx Hs].
  destruct i; simpl; auto. apply IH; auto. lia.
Qed.

Lemma CleanSeries_notna s : CleanSeries s -> forallb notna s = true.
Proof.
  induction s as [|x s IH]; intros Hs; simpl; auto.
  apply CleanSeries_cons in Hs as [Hx Hs].
  rewrite (is_finite_notna x Hx). auto.
Qed.

Lemma dropna_id s : forallb notna s = true -> dropna s = s.
Proof.
  induction s as [|x s IH]; simpl; auto.
  intros H. apply andb_true_iff in H as [Hx Hs].
  rewrite Hx, IH; auto.
Qed.

Lemma dropna_notna s : forallb notna (dropna s) = true.
Proof.
  induction s as [|x s IH]; simpl; auto.
  destruct (notna x) eqn:E; simpl; auto. rewrite E. auto.
Qed.

Lemma dropna_idem s : dropna (dropna s) = dropna s.
Proof. apply dropna_id, dropna_notna. Qed.

Lemma fillna_notna v s : notna v = true -> forallb notna (fillna v s) = true.
Proof.
  intros Hv. induction s as [|x s IH]; simpl; auto.
  rewrite IH, andb_true_r. unfold isna, notna in *.
  destruct (is_nan x) eqn:E; auto. now rewrite E.
Qed.

Lemma length_fillna v s : length (fillna v s) = length s.
Proof. apply length_map. Qed.

Lemma length_pct_from prev s : length (pct_from prev s) = length s.
Proof. revert prev. induction s; simpl; auto. Qed.

Lemma length_pct_change s : length (pct_change s) = length s.
Proof. destruct s; simpl; auto using length_pct_from. Qed.

Lemma length_returns s : length (returns s) = length s.
Proof. unfold returns. now rewrite length_fillna, length_pct_change. Qed.

Lemma nth_pct_from prev s i :
  i < length s ->
  nth i (pct_from prev s) nan
  = (nth (S i) (prev :: s) nan / nth i (prev :: s) nan - 1)%float.
Proof.
  revert prev i. induction s as [|x s IH]; intros prev i Hi; simpl in Hi; [lia|].
  destruct i; [reflexivity|].
  change (nth (S i) (pct_from prev (x :: s)) nan) with (nth i (pct_from x s) nan).
  rewrite IH by lia. reflexivity.
Qed.

Lemma nth_pct_change s i :
  1 <= i < length s ->
  nth i (pct_change s) nan = (nth i s nan / nth (i - 1) s nan - 1)%float.
Proof.
  destruct s as [|x s]; simpl; [lia|]. intros Hi.
  destruct i as [|i]; [lia|].
  rewrite nth_pct_from by lia. simpl. now rewrite Nat.sub_0_r.
Qed.

Lemma nth_fillna v s i :
  i < length s ->
  nth i (fillna v s) nan = if isna (nth i s nan) then v else nth i s nan.
Proof.
  intros Hi. unfold fillna.
  rewrite (nth_indep _ nan (if isna nan then v else nan))
    by (now rewrite length_map).
  now rewrite (map_nth (fun x => if isna x then v else x)).
Qed.

Lemma length_period_returns s : length (period_returns s) = length s - 1.
Proof. unfold period_returns. now rewrite length_map, length_seq. Qed.

Lemma nth_period_returns s i :
  i < length s - 1 ->
  nth i (period_returns s) nan = (nth (S i) s nan / nth i s nan - 1)%float.
Proof.
  intros Hi. unfold period_returns.
  set (f := fun i => (nth i s nan / nth (i - 1) s nan - 1)%float).
  rewrite (nth_indep _ nan (f 0)) by (now rewrite length_map, length_seq).
  rewrite (map_nth f), seq_nth by assumption.
  unfold f. simpl. now rewrite Nat.sub_0_r.
Qed.

Lemma pct_change_period_returns x s :
  pct_change (x :: s) = nan :: period_returns (x :: s).
Proof.
  apply (nth_ext _ _ nan nan).
  - rewrite length_pct_change. cbn [length].
    rewrite length_period_returns. cbn [length]. lia.
  - intros [|i] Hi; [reflexivity|]. rewrite length_pct_change in Hi.
    rewrite nth_pct_change by lia.
    change (nth (S i) (nan :: period_returns (x :: s)) nan)
      with (nth i (period_returns (x :: s)) nan).
    rewrite nth_period_returns by (cbn [length] in *; lia).
    now rewrite Nat.sub_succ, Nat.sub_0_r.
Qed.

(** ** The Normalizer *)

(** C1.  For every non-empty clean price series whose first price is not
    zero, [normalize_series] returns a series of the same length whose
    entry [i] is [price[i] / price[0] * 100], and whose first entry is
    exactly 100.  ([normalize_series] is a function of the series alone:
    it reads and writes nothing else.) *)
Theorem normalize_series_base_100 (series : Series) :
  series <> [] ->
  CleanSeries series ->
  (nth 0 series nan =? 0)%float = false ->
  exists out,
    normalize_series series = Ok out /\
    length out = length series /\
    (forall i, i < length series ->
       nth i out nan = (nth i series nan / nth 0 series nan * 100)%float) /\
    nth 0 out nan = 100%float.
Proof.
  intros Hne Hclean Hnz.
  destruct series as [|first rest]; [congruence|]. simpl in Hnz.
  apply CleanSeries_cons in Hclean as [Hfin _].
  exists (map (fun x => (x / first * 100)%float) (first :: rest)).
  split; [reflexivity|]. split; [apply length_map|]. split.
  - intros i Hi.
    rewrite (nth_indep _ nan ((fun x => (x / first * 100)%float) nan))
      by (now rewrite length_map).
    now rewrite (map_nth (fun x => (x / first * 100)%float)).
  - simpl. now rewrite (div_self first Hfin Hnz).
Qed.

Lemma normalize_series_base_100_witness :
  [100; 110; 99]%float <> [] /\
  CleanSeries [100; 110; 99]%float /\
  (nth 0 [100; 110; 99] nan =? 0)%float = false /\
  exists out,
    normalize_series [100; 110; 99]%float = Ok out /\
    length out = 3 /\
    (forall i, i < 3 ->
       nth i out nan
       = (nth i [100; 110; 99] nan / nth 0 [100; 110; 99] nan * 100)%float) /\
    nth 0 out nan = 100%float.
Proof.
  split; [discriminate|]. split; [reflexivity|]. split; [reflexivity|].
  apply (normalize_series_base_100 [100; 110; 99]%float);
    [discriminate | reflexivity | reflexivity].
Defined.

(** ** The Return Calculator *)

Lemma returns_notna s : forallb notna (returns s) = true.
Proof. apply fillna_notna. reflexivity. Qed.

Lemma nth_returns s i :
  1 <= i < length s ->
  nth i (returns s) nan
  = let q := (nth i s nan / nth (i - 1) s nan - 1)%float in
    if is_nan q then 0%float else q.
Proof.
  intros Hi. unfold returns.
  rewrite nth_fillna by (rewrite length_pct_change; lia).
  now rewrite nth_pct_change by assumption.
Qed.

(** C2 (amended).  For every clean price series with N observations the
    return series has exactly N elements, [return[0]] is 0 and, for every
    [i >= 1], [return[i]] is [price[i] / price[i-1] - 1], except where
    both prices are 0: there the quotient is undefined and the return is
    filled with 0. *)
Theorem returns_fill_undefined (series : Series) :
  CleanSeries series ->
  length (returns series) = length series /\
  (series <> [] -> nth 0 (returns series) nan = 0%float) /\
  (forall i, 1 <= i < length series ->
     nth i (returns series) nan
     = if ((nth i series nan =? 0) && (nth (i - 1) series nan =? 0))%float
       then 0%float
       else (nth i series nan / nth (i - 1) series nan - 1)%float).
Proof.
  intros Hclean. split; [apply length_returns|]. split.
  - destruct series; [congruence|reflexivity].
  - intros i Hi. rewrite nth_returns by assumption. cbv zeta.
    rewrite pct_nan by (apply CleanSeries_nth; auto; lia).
    reflexivity.
Qed.

Lemma returns_fill_undefined_witness :
  CleanSeries [100; 110; 0; 0]%float /\
  length (returns [100; 110; 0; 0]%float) = 4 /\
  nth 0 (returns [100; 110; 0; 0]%float) nan = 0%float /\
  nth 1 (returns [100; 110; 0; 0]%float) nan = (110 / 100 - 1)%float /\
  nth 3 (returns [100; 110; 0; 0]%float) nan = 0%float.
Proof.
  assert (Hc : CleanSeries [100; 110; 0; 0]%float) by reflexivity.
  destruct (returns_fill_undefined [100; 110; 0; 0]%float Hc) as (Hlen & H0 & Hi).
  split; [exact Hc|]. split; [exact Hlen|].
  split; [apply H0; discriminate|].
  split; [apply (Hi 1); simpl; lia | apply (Hi 3); simpl; lia].
Defined.

(** C2, as stated, fails on the clean series [0, 0]: the code's
    [return[1]] is 0, while [price[1] / price[0] - 1] is undefined. *)
Lemma returns_zero_over_zero :
  CleanSeries [0; 0]%float /\
  nth 1 (returns [0; 0]%float) nan = 0%float /\
  is_nan (nth 1 [0; 0] nan / nth 0 [0; 0] nan - 1)%float = true /\
  nth 1 (returns [0; 0]%float) nan
  <> (nth 1 [0; 0] nan / nth 0 [0; 0] nan - 1)%float.
Proof.
  repeat split. intros H. apply (f_equal is_nan) in H. discriminate H.
Qed.

(** *** Cumulative returns *)

Lemma putmask_clear (xs ys : list float) v :
  forallb notna ys = true -> length xs = length ys ->
  putmask xs (map isna ys) v = xs.
Proof.
  unfold putmask. revert ys.
  induction xs as [|x xs IH]; intros [|y ys] Hy Hl; simpl in *;
    try discriminate; auto.
  apply andb_true_iff in Hy as [Hy Hys].
  unfold isna, notna in *. destruct (is_nan y); [discriminate|].
  simpl. f_equal. apply IH; auto.
Qed.

Lemma length_cumprod_from acc xs : length (cumprod_from acc xs) = length xs.
Proof. revert acc. induction xs; simpl; auto. Qed.

Lemma length_np_cumprod xs : length (np_cumprod xs) = length xs.
Proof. destruct xs; simpl; auto using length_cumprod_from. Qed.

Lemma cumprod_notna xs :
  forallb notna xs = true -> cumprod xs = np_cumprod xs.
Proof.
  intros H. unfold cumprod.
  rewrite (putmask_clear xs xs) by auto.
  apply putmask_clear; auto using length_np_cumprod.
Qed.

Lemma nth_cumprod_from_0 acc xs :
  xs <> [] -> nth 0 (cumprod_from acc xs) nan = (acc * nth 0 xs nan)%float.
Proof. destruct xs; [congruence|reflexivity]. Qed.

Lemma nth_cumprod_from_S acc xs j :
  S j < length xs ->
  nth (S j) (cumprod_from acc xs) nan
  = (nth j (cumprod_from acc xs) nan * nth (S j) xs nan)%float.
Proof.
  revert acc j. induction xs as [|x xs IH]; intros acc j Hj; simpl in Hj; [lia|].
  destruct j as [|j].
  - simpl. apply nth_cumprod_from_0. destruct xs; simpl in *; [lia|congruence].
  - change (nth (S (S j)) (cumprod_from acc (x :: xs)) nan)
      with (nth (S j) (cumprod_from (acc * x) xs) nan).
    rewrite IH by lia. reflexivity.
Qed.

Lemma nth_np_cumprod_S xs j :
  S j < length xs ->
  nth (S j) (np_cumprod xs) nan
  = (nth j (np_cumprod xs) nan * nth (S j) xs nan)%float.
Proof.
  destruct xs as [|x xs]; simpl; [lia|]. intros Hj.
  destruct j as [|j].
  - apply nth_cumprod_from_0. destruct xs; simpl in *; [lia|congruence].
  - apply nth_cumprod_from_S. lia.
Qed.

Lemma nth_map_add_one r i :
  i < length r ->
  nth i (map (fun x => (1 + x)%float) r) nan = (1 + nth i r nan)%float.
Proof.
  intros Hi. rewrite (nth_indep _ nan ((fun x => (1 + x)%float) nan))
    by (now rewrite length_map).
  now rewrite (map_nth (fun x => (1 + x)%float)).
Qed.

Lemma nth_np_cumprod_compound r i :
  i < length r ->
  nth i (np_cumprod (map (fun x => (1 + x)%float) r)) nan = compound r i.
Proof.
  induction i as [|j IH]; intros Hi.
  - destruct r; simpl in *; [lia|reflexivity].
  - rewrite nth_np_cumprod_S by (now rewrite length_map).
    rewrite IH by lia. rewrite nth_map_add_one by assumption. reflexivity.
Qed.

Lemma factors_notna r :
  forallb notna r = true ->
  forallb notna (map (fun x => (1 + x)%float) r) = true.
Proof.
  induction r as [|x r IH]; simpl; auto.
  intros H. apply andb_true_iff in H as [Hx Hr].
  rewrite IH by assumption. unfold notna in *.
  now rewrite add_one_nan, Hx.
Qed.

Lemma nth_cum_returns s i :
  i < length s ->
  nth i (cum_returns s) nan = (compound (returns s) i - 1)%float.
Proof.
  intros Hi. unfold cum_returns.
  rewrite cumprod_notna by apply factors_notna, returns_notna.
  rewrite (nth_indep _ nan ((fun c => (c - 1)%float) nan))
    by (now rewrite length_map, length_np_cumprod, length_map, length_returns).
  rewrite (map_nth (fun c => (c - 1)%float)).
  now rewrite nth_np_cumprod_compound by (now rewrite length_returns).
Qed.

(** Once the compounded product is zero it stays zero while the growth
    factors are finite. *)
Lemma compound_stays_zero r k i :
  k <= i ->
  (compound r k =? 0)%float = true ->
  (forall j, k < j <= i -> is_finite (1 + nth j r nan)%float = true) ->
  (compound r i =? 0)%float = true.
Proof.
  induction 1 as [|i Hle IH]; intros Hk Hfin; [exact Hk|].
  simpl. apply mul_zero_l.
  - apply IH; auto. intros j Hj. apply Hfin. lia.
  - apply Hfin. lia.
Qed.

Lemma compound_hits_zero r k :
  nth k r nan = (-1)%float ->
  is_finite (compound r (k - 1)) = true ->
  (compound r k =? 0)%float = true.
Proof.
  intros Hr Hfin. destruct k as [|k]; simpl.
  - rewrite Hr. reflexivity.
  - simpl in Hfin. rewrite Nat.sub_0_r in Hfin.
    rewrite Hr. change (1 + -1)%float with 0%float.
    now apply mul_zero_r.
Qed.

(** C3 (amended).  For every clean price series and every index [i], the
    cumulative return [cum[i]] is the product of [1 + return[j]] over
    [j = 0..i], compounded one period after the other, minus 1.  If
    [return[k]] is exactly -100% and the product compounded before [k] is
    finite, then [cum[i]] is exactly -100% for every [i >= k] up to which
    the growth factors [1 + return[j]], [k < j <= i], are finite. *)
Theorem cum_returns_compounding (series : Series) (i k : nat) :
  CleanSeries series ->
  i < length series ->
  nth i (cum_returns series) nan = (compound (returns series) i - 1)%float /\
  (k <= i ->
   nth k (returns series) nan = (-1)%float ->
   is_finite (compound (returns series) (k - 1)) = true ->
   (forall j, k < j <= i ->
      is_finite (1 + nth j (returns series) nan)%float = true) ->
   nth i (cum_returns series) nan = (-1)%float).
Proof.
  intros _ Hi. split; [now apply nth_cum_returns|].
  intros Hk Hr Hfin Hlater.
  rewrite nth_cum_returns by assumption.
  apply zero_sub_one.
  apply (compound_stays_zero _ k i); auto.
  now apply compound_hits_zero.
Qed.

Lemma cum_returns_compounding_witness :
  CleanSeries [100; 0; 0; 0]%float /\
  3 < length [100; 0; 0; 0]%float /\
  nth 3 (cum_returns [100; 0; 0; 0]%float) nan
  = (compound (returns [100; 0; 0; 0]%float) 3 - 1)%float /\
  nth 1 (returns [100; 0; 0; 0]%float) nan = (-1)%float /\
  nth 3 (cum_returns [100; 0; 0; 0]%float) nan = (-1)%float.
Proof.
  assert (Hc : CleanSeries [100; 0; 0; 0]%float) by reflexivity.
  assert (Hi : 3 < length [100; 0; 0; 0]%float) by (simpl; lia).
  destruct (cum_returns_compounding [100; 0; 0; 0]%float 3 1 Hc Hi)
    as [Hprod Hcascade].
  split; [exact Hc|]. split; [exact Hi|]. split; [exact Hprod|].
  split; [reflexivity|].
  apply Hcascade; [lia | reflexivity | reflexivity |].
  intros j Hj.
  assert (Hj' : j = 2 \/ j = 3) by lia.
  destruct Hj' as [-> | ->]; reflexivity.
Defined.

(** C3, as stated, fails on the clean series [100, 0, 50]: [return[1]] is
    exactly -100%, yet the later cumulative value is null, not -100%. *)
Lemma cum_returns_rebound_is_null :
  CleanSeries [100; 0; 50]%float /\
  returns [100; 0; 50]%float = [0; -1; infinity]%float /\
  cum_returns [100; 0; 50]%float = [0; -1; nan]%float /\
  is_nan (nth 2 (cum_returns [100; 0; 50]%float) nan) = true /\
  (nth 2 (cum_returns [100; 0; 50]%float) nan =? -1)%float = false.
Proof. repeat split. Qed.

(** ** Sums and aggregates *)

(** The fuel of [pairwise_sum] never runs out: any fuel that is at least
    the length of the array gives the same sum. *)
Lemma pairwise_sum_fuel fuel1 :
  forall fuel2 a,
    length a <= fuel1 -> length a <= fuel2 ->
    pairwise_sum fuel1 a = pairwise_sum fuel2 a.
Proof.
  induction fuel1 as [|f1 IH]; intros fuel2 a H1 H2.
  - destruct a; [|simpl in H1; lia]. destruct fuel2; reflexivity.
  - destruct fuel2 as [|f2].
    + destruct a; [reflexivity|simpl in H2; lia].
    + cbn [pairwise_sum]. destruct (Nat.leb_spec (length a) 128) as [|Hn];
        [reflexivity|].
      set (n2 := length a / 2 - (length a / 2) mod 8).
      assert (Hhalf : length a / 2 < length a)
        by (apply Nat.div_lt; lia).
      assert (Hlow : 64 <= length a / 2)
        by (apply Nat.div_le_lower_bound; lia).
      assert (Hmod : (length a / 2) mod 8 < 8)
        by (apply Nat.mod_upper_bound; lia).
      assert (Hn2 : 0 < n2 < length a) by (unfold n2; lia).
      f_equal; apply IH;
        rewrite ?length_firstn, ?length_skipn; lia.
Qed.

Lemma length_dropna_le s : length (dropna s) <= length s.
Proof. apply filter_length_le. Qed.



Lemma var_short s : length (dropna s) <= 1 -> var s = nan.
Proof.
  intros H. unfold var.
  destruct (Nat.leb_spec (length (dropna s)) 1); [reflexivity|lia].
Qed.

(** ** The Volatility Calculator *)

Lemma is_nan_eqb_zero v : is_nan v = true -> (v =? 0)%float = false.
Proof.
  rewrite is_nan_SF, is_zero_eqb. destruct (Prim2SF v); simpl; congruence.
Qed.











Lemma nth_map_nan (f : float -> float) l i :
  f nan = nan -> nth i (map f l) nan = f (nth i l nan).
Proof. intros H. rewrite <- H at 1. apply map_nth. Qed.

Lemma nth_rolling_vol s i :
  nth i (rolling_vol s) nan
  = (zsqrt
       (nth i (roll_var 20 20
                 (map (fun x => if is_infinity x then nan else x)
                      (returns s))) nan) * 100)%float.
Proof.
  unfold rolling_vol, rolling_std. fold (returns s). cbv zeta.
  rewrite (nth_map_nan (fun v => (v * 100)%float)) by reflexivity.
  now rewrite (nth_map_nan zsqrt) by reflexivity.
Qed.




(** ** The Summary Aggregator *)




Lemma summary_stats_cons x rest :
  summary_stats (x :: rest)
  = Ok {| start_price := x;
          end_price := last rest x;
          total_return := ((last rest x / x - 1) * 100)%float;
          avg_daily_return :=
            (mean (dropna (period_returns (x :: rest))) * 100)%float;
          volatility :=
            (std (dropna (period_returns (x :: rest))) * 100)%float |}.
Proof.
  unfold summary_stats, iloc_first, iloc_last.
  rewrite pct_change_period_returns. reflexivity.
Qed.




(** C8 (amended).  For a clean series with a single observation the
    Summary Aggregator signals nothing and still produces the row: start
    and end price are the one price, the average daily return and the
    volatility are null (written [nan]), and the total return is 0.00
    when the price is not zero. *)
Theorem single_observation_summary (index : string) (p : float) :
  CleanSeries [p] ->
  exists st,
    summary_stats [p] = Ok st /\
    start_price st = p /\
    end_price st = p /\
    is_nan (avg_daily_return st) = true /\
    is_nan (volatility st) = true /\
    Avg_Daily_Return (summary_row index st) = "nan"%string /\
    Volatility (summary_row index st) = "nan"%string /\
    ((p =? 0)%float = false ->
     total_return st = 0%float /\
     Total_Return (summary_row index st) = "0.00"%string).
Proof.
  intros Hclean. apply CleanSeries_cons in Hclean as [Hfin _].
  eexists. split; [apply summary_stats_cons|].
  cbn [start_price end_price total_return avg_daily_return volatility
       summary_row Avg_Daily_Return Volatility Total_Return last].
  repeat (split; [reflexivity|]).
  intros Hnz. rewrite (div_self p Hfin Hnz). split; reflexivity.
Qed.

Lemma single_observation_summary_witness :
  CleanSeries [100]%float /\
  exists st,
    summary_stats [100]%float = Ok st /\
    summary_row "S&P 500" st
    = {| row_Index := "S&P 500";
         Start_Price := "100.00";
         End_Price := "100.00";
         Total_Return := "0.00";
         Avg_Daily_Return := "nan";
         Volatility := "nan" |}.
Proof.
  assert (Hc : CleanSeries [100]%float) by reflexivity.
  split; [exact Hc|].
  destruct (single_observation_summary "S&P 500" 100%float Hc)
    as (st & Hst & Hs & He & _ & _ & Ha & Hv & Ht).
  exists st. split; [exact Hst|].
  destruct (Ht eq_refl) as [_ Ht'].
  destruct st as [s e t a v]. unfold summary_row in *. simpl in *.
  subst s e. rewrite Ht', Ha, Hv. reflexivity.
Defined.

(** C8, as stated, fails on a one-row fetch: the summary table keeps the
    row, with null average and volatility, and no warning is rendered. *)
Lemma single_observation_row_kept :
  CleanSeries [100]%float /\
  fst (run (download_of [("^GSPC"%string, [100]%float)])
           ["S&P 500"%string] false) = Ok tt /\
  summary_table
    (snd (run (download_of [("^GSPC"%string, [100]%float)])
              ["S&P 500"%string] false))
  = Some [ {| row_Index := "S&P 500";
              Start_Price := "100.00";
              End_Price := "100.00";
              Total_Return := "0.00";
              Avg_Daily_Return := "nan";
              Volatility := "nan" |} ] /\
  notices
    (snd (run (download_of [("^GSPC"%string, [100]%float)])
              ["S&P 500"%string] false))
  = [].
Proof. vm_compute. repeat split. Qed.

(** ** The Normalizer on a zero base price *)

Lemma div_zero_degenerate x z :
  is_finite x = true -> (z =? 0)%float = true ->
  is_finite (x / z * 100)%float = false.
Proof.
  rewrite !is_finite_SF, is_zero_eqb, mul_spec, div_spec.
  change (Prim2SF 100) with (S754_finite false 7036874417766400 (-46)).
  destruct (Prim2SF x), (Prim2SF z); simpl; congruence.
Qed.

Lemma zero_div_zero_is_nan z :
  (z =? 0)%float = true -> is_nan (z / z * 100)%float = true.
Proof.
  rewrite is_nan_SF, is_zero_eqb, mul_spec, div_spec.
  destruct (Prim2SF z); simpl; congruence.
Qed.

(** C9 (amended).  For every non-empty clean series whose first price
    equals 0, [normalize_series] signals nothing and performs the
    division: it returns [price[i] / price[0] * 100] for every [i], none
    of which is a finite number, and the first of which is null (0/0). *)
Theorem normalize_series_zero_base (series : Series) :
  series <> [] ->
  CleanSeries series ->
  (nth 0 series nan =? 0)%float = true ->
  exists out,
    normalize_series series = Ok out /\
    length out = length series /\
    (forall i, i < length series ->
       nth i out nan = (nth i series nan / nth 0 series nan * 100)%float /\
       is_finite (nth i out nan) = false) /\
    is_nan (nth 0 out nan) = true.
Proof.
  intros Hne Hclean Hz.
  destruct series as [|first rest]; [congruence|]. simpl in Hz.
  exists (map (fun x => (x / first * 100)%float) (first :: rest)).
  split; [reflexivity|]. split; [apply length_map|].
  assert (Hnth : forall i, i < length (first :: rest) ->
            nth i (map (fun x => (x / first * 100)%float) (first :: rest)) nan
            = (nth i (first :: rest) nan / first * 100)%float).
  { intros i Hi.
    rewrite (nth_indep _ nan ((fun x => (x / first * 100)%float) nan))
      by (now rewrite length_map).
    now rewrite (map_nth (fun x => (x / first * 100)%float)). }
  split.
  - intros i Hi. rewrite Hnth by assumption. split; [reflexivity|].
    apply div_zero_degenerate; [|assumption].
    now apply CleanSeries_nth.
  - simpl. now apply zero_div_zero_is_nan.
Qed.

Lemma normalize_series_zero_base_witness :
  [0; 5]%float <> [] /\
  CleanSeries [0; 5]%float /\
  (nth 0 [0; 5] nan =? 0)%float = true /\
  exists out,
    normalize_series [0; 5]%float = Ok out /\
    length out = 2 /\
    is_nan (nth 0 out nan) = true.
Proof.
  split; [discriminate|]. split; [reflexivity|]. split; [reflexivity|].
  destruct (normalize_series_zero_base [0; 5]%float)
    as (out & Hout & Hlen & _ & Hnan);
    [discriminate | reflexivity | reflexivity |].
  exists out. split; [exact Hout|]. split; [exact Hlen | exact Hnan].
Defined.

(** C9, as stated, fails on a fetch whose first price is 0: the division
    is performed, nothing is signalled and the index stays on the
    chart and in the summary table. *)
Lemma zero_base_not_signalled :
  CleanSeries [0; 5]%float /\
  normalize_series [0; 5]%float = Ok [nan; infinity]%float /\
  fst (run (download_of [("^GSPC"%string, [0; 5]%float)])
           ["S&P 500"%string] false) = Ok tt /\
  notices
    (snd (run (download_of [("^GSPC"%string, [0; 5]%float)])
              ["S&P 500"%string] false))
  = [] /\
  chart_names "Normalized Market Index Performance"
    (snd (run (download_of [("^GSPC"%string, [0; 5]%float)])
              ["S&P 500"%string] false))
  = ["S&P 500"%string] /\
  option_map (map row_Index)
    (summary_table
       (snd (run (download_of [("^GSPC"%string, [0; 5]%float)])
                 ["S&P 500"%string] false)))
  = Some ["S&P 500"%string].
Proof. vm_compute. repeat split. Qed.

(** ** The Series Cleaner *)

Lemma length_ffill_from prev s : length (ffill_from prev s) = length s.
Proof.
  revert prev. induction s as [|x s IH]; intros prev; simpl; auto.
  destruct (isna x); simpl; now rewrite IH.
Qed.

Lemma ffill_from_notna prev s :
  notna prev = true -> forallb notna (ffill_from prev s) = true.
Proof.
  revert prev. induction s as [|x s IH]; intros prev Hp; simpl; auto.
  destruct (isna x) eqn:E; simpl.
  - now rewrite Hp, IH.
  - assert (Hx : notna x = true) by (unfold notna, isna in *; now rewrite E).
    now rewrite Hx, IH.
Qed.

Lemma dropna_ffill_null x r :
  isna x = true -> dropna (ffill (x :: r)) = dropna (ffill r).
Proof. intros E. unfold ffill. simpl. now rewrite E. Qed.

Lemma dropna_ffill_valid x r :
  isna x = false -> dropna (ffill (x :: r)) = x :: ffill_from x r.
Proof.
  intros E. unfold ffill. simpl. rewrite E.
  assert (Hx : notna x = true) by (unfold notna, isna in *; now rewrite E).
  apply dropna_id. simpl. now rewrite Hx, ffill_from_notna.
Qed.

Lemma length_dropna_ffill raw :
  length (dropna (ffill raw)) = length raw - leading_nulls raw.
Proof.
  induction raw as [|x r IH]; [reflexivity|].
  cbn [leading_nulls]. destruct (isna x) eqn:E.
  - rewrite dropna_ffill_null by assumption. simpl. exact IH.
  - rewrite dropna_ffill_valid by assumption. simpl.
    now rewrite length_ffill_from.
Qed.

Lemma leading_nulls_null raw m :
  m < leading_nulls raw -> isna (nth m raw nan) = true.
Proof.
  revert m. induction raw as [|x r IH]; intros m Hm; simpl in Hm; [lia|].
  destruct (isna x) eqn:E; [|lia].
  destruct m; simpl; auto. apply IH. lia.
Qed.

(** Entry [i] of a forward fill is the last valid entry at or before [i],
    or the carried value when there is none. *)
Lemma nth_ffill_from prev s i :
  i < length s ->
  (exists j, j <= i /\
             isna (nth j s nan) = false /\
             (forall m, j < m <= i -> isna (nth m s nan) = true) /\
             nth i (ffill_from prev s) nan = nth j s nan) \/
  ((forall m, m <= i -> isna (nth m s nan) = true) /\
   nth i (ffill_from prev s) nan = prev).
Proof.
  revert prev i. induction s as [|x s IH]; intros prev i Hi; simpl in Hi; [lia|].
  destruct i as [|i].
  - simpl. destruct (isna x) eqn:E.
    + right. split; [|reflexivity]. intros m Hm.
      replace m with 0 by lia. exact E.
    + left. exists 0. repeat split; auto. intros m Hm. lia.
  - assert (Hi' : i < length s) by lia.
    simpl ffill_from. destruct (isna x) eqn:E.
    + destruct (IH prev i Hi') as [(j & Hj & Hv & Hn & Heq) | [Hn Heq]].
      * left. exists (S j). repeat split; auto; [lia|].
        intros [|m] Hm; [lia|]. apply Hn. lia.
      * right. split; [|exact Heq].
        intros [|m] Hm; [exact E|]. apply Hn. lia.
    + destruct (IH x i Hi') as [(j & Hj & Hv & Hn & Heq) | [Hn Heq]].
      * left. exists (S j). repeat split; auto; [lia|].
        intros [|m] Hm; [lia|]. apply Hn. lia.
      * left. exists 0. repeat split; auto; [lia|].
        intros [|m] Hm; [lia|]. apply Hn. lia.
Qed.

Lemma nth_dropna_ffill raw i :
  leading_nulls raw <= i < length raw ->
  exists j,
    leading_nulls raw <= j <= i /\
    isna (nth j raw nan) = false /\
    (forall m, j < m <= i -> isna (nth m raw nan) = true) /\
    nth (i - leading_nulls raw) (dropna (ffill raw)) nan = nth j raw nan.
Proof.
  revert i. induction raw as [|x r IH]; intros i Hi; [simpl in Hi; lia|].
  cbn [leading_nulls length] in *. destruct (isna x) eqn:E.
  - destruct i as [|i]; [lia|].
    destruct (IH i ltac:(lia)) as (j & Hj & Hv & Hn & Heq).
    exists (S j). split; [lia|]. split; [exact Hv|]. split.
    + intros [|m] Hm; [lia|]. apply Hn. lia.
    + rewrite dropna_ffill_null by assumption.
      rewrite Nat.sub_succ. exact Heq.
  - rewrite dropna_ffill_valid, Nat.sub_0_r by assumption.
    destruct i as [|i].
    + exists 0. repeat split; auto. intros m Hm. lia.
    + destruct (nth_ffill_from x r i ltac:(lia))
        as [(j & Hj & Hv & Hn & Heq) | [Hn Heq]].
      * exists (S j). split; [lia|]. split; [exact Hv|]. split; [|exact Heq].
        intros [|m] Hm; [lia|]. apply Hn. lia.
      * exists 0. split; [lia|]. split; [exact E|]. split; [|exact Heq].
        intros [|m] Hm; [lia|]. apply Hn. lia.
Qed.

(** C10.  For every raw observation sequence the Series Cleaner
    ([ffill().dropna()]) drops exactly the leading null entries, which
    have no prior value to fill from, and every later entry is the most
    recent non-null price at or before it: a null takes the preceding
    price, a price stays.  [Cleaner([10, null, null, 12])] is
    [[10, 10, 10, 12]]. *)
Theorem ffill_dropna_forward_fill :
  (forall raw : Series,
     length (dropna (ffill raw)) = length raw - leading_nulls raw /\
     (forall m, m < leading_nulls raw -> isna (nth m raw nan) = true)) /\
  (forall (raw : Series) (i : nat),
     leading_nulls raw <= i < length raw ->
     exists j,
       leading_nulls raw <= j <= i /\
       isna (nth j raw nan) = false /\
       (forall m, j < m <= i -> isna (nth m raw nan) = true) /\
       nth (i - leading_nulls raw) (dropna (ffill raw)) nan = nth j raw nan) /\
  dropna (ffill [10; nan; nan; 12]%float) = [10; 10; 10; 12]%float.
Proof.
  split; [|split].
  - intros raw. split; [apply length_dropna_ffill|].
    intros m. apply leading_nulls_null.
  - apply nth_dropna_ffill.
  - reflexivity.
Qed.

Lemma ffill_dropna_forward_fill_witness :
  leading_nulls [nan; 10; nan; nan; 12]%float <= 3 < 5 /\
  exists j,
    1 <= j <= 3 /\
    isna (nth j [nan; 10; nan; nan; 12]%float nan) = false /\
    nth 2 (dropna (ffill [nan; 10; nan; nan; 12]%float)) nan
    = nth j [nan; 10; nan; nan; 12]%float nan.
Proof.
  assert (Hi : leading_nulls [nan; 10; nan; nan; 12]%float <= 3
               < length [nan; 10; nan; nan; 12]%float) by (simpl; lia).
  split; [exact Hi|].
  destruct (proj1 (proj2 ffill_dropna_forward_fill)
              [nan; 10; nan; nan; 12]%float 3 Hi)
    as (j & Hj & Hv & _ & Heq).
  exists j. split; [exact Hj|]. split; [exact Hv | exact Heq].
Defined.

(** [fetch_data] hands the closing prices to the cleaner. *)
Lemma fetch_data_cleans (ticker : string) (x : float) (raw : Series)
  (page : list Element) :
  fetch_data (download_of [(ticker, x :: raw)]) ticker page
  = (Ok (dropna (ffill (x :: raw))), page).
Proof.
  unfold fetch_data, download_of. cbn [get_column].
  rewrite String.eqb_refl. cbn [df_empty empty get_column2 fst snd].
  rewrite !String.eqb_refl. reflexivity.
Qed.

(** ** Empty series in the script *)

(** C6.  A fetch whose closing prices are all null is not empty, yet the
    cleaner leaves nothing of it: the index is dropped from every chart
    and from the summary table, and the page shows no warning for it. *)
Lemma all_null_fetch_is_silent :
  df_empty (download_of [("^GSPC"%string, [nan; nan])] "^GSPC") = false /\
  fetch_data (download_of [("^GSPC"%string, [nan; nan])]) "^GSPC" []
  = (Ok [], []) /\
  run (download_of [("^GSPC"%string, [nan; nan])]) ["S&P 500"%string] false
  = (Ok tt,
     [ st_subheader "Normalized Performance Chart";
       st_plotly_chart "Normalized Market Index Performance" [];
       st_subheader "Cumulative Returns Chart";
       st_plotly_chart "Cumulative Returns Since Start Date" [];
       st_subheader "Rolling 20-Day Volatility";
       st_plotly_chart "20-Day Rolling Volatility" [];
       st_subheader "Performance Summary Table";
       st_dataframe [];
       st_download_button "Download Summary as CSV" ]) /\
  notices
    (snd (run (download_of [("^GSPC"%string, [nan; nan])])
              ["S&P 500"%string] false))
  = [].
Proof. vm_compute. repeat split. Qed.

(** The scenario of C6 that the script does honour: of two selected
    indices, one with five valid rows and one with an empty fetch, the
    summary table has exactly one row, one warning names the empty
    ticker, and every chart plots the valid index only. *)
Lemma empty_fetch_is_excluded_with_warning :
  fst (run (download_of [("^GSPC"%string, [1; 2; 3; 4; 5]%float)])
           ["S&P 500"; "NASDAQ"]%string false) = Ok tt /\
  option_map (map row_Index)
    (summary_table
       (snd (run (download_of [("^GSPC"%string, [1; 2; 3; 4; 5]%float)])
                 ["S&P 500"; "NASDAQ"]%string false)))
  = Some ["S&P 500"%string] /\
  notices
    (snd (run (download_of [("^GSPC"%string, [1; 2; 3; 4; 5]%float)])
              ["S&P 500"; "NASDAQ"]%string false))
  = [st_warning "No data returned for ^IXIC."] /\
  chart_names "Normalized Market Index Performance"
    (snd (run (download_of [("^GSPC"%string, [1; 2; 3; 4; 5]%float)])
              ["S&P 500"; "NASDAQ"]%string false))
  = ["S&P 500"%string] /\
  chart_names "Cumulative Returns Since Start Date"
    (snd (run (download_of [("^GSPC"%string, [1; 2; 3; 4; 5]%float)])
              ["S&P 500"; "NASDAQ"]%string false))
  = ["S&P 500"%string] /\
  chart_names "20-Day Rolling Volatility"
    (snd (run (download_of [("^GSPC"%string, [1; 2; 3; 4; 5]%float)])
              ["S&P 500"; "NASDAQ"]%string false))
  = ["S&P 500"%string].
Proof. vm_compute. repeat split. Qed.

(** C7.  With "Show raw data" ticked, one index whose fetch is empty
    stops the script: [normalize_series] is applied to the empty series
    without the guard of the main loop, [iloc[0]] raises [IndexError],
    and the raw normalized view shows no index at all, the valid one
    included. *)
Lemma raw_view_raises_on_empty_fetch :
  fst (run (download_of [("^GSPC"%string, [1; 2; 3; 4; 5]%float)])
           ["S&P 500"; "NASDAQ"]%string false) = Ok tt /\
  fst (run (download_of [("^GSPC"%string, [1; 2; 3; 4; 5]%float)])
           ["S&P 500"; "NASDAQ"]%string true) = Raise IndexError /\
  raw_table
    (snd (run (download_of [("^GSPC"%string, [1; 2; 3; 4; 5]%float)])
              ["S&P 500"; "NASDAQ"]%string true))
  = None /\
  fst (run (download_of [("^GSPC"%string, [1; 2; 3; 4; 5]%float);
                         ("^IXIC"%string, [7; 8; 9]%float)])
           ["S&P 500"; "NASDAQ"]%string true) = Ok tt /\
  option_map (map fst)
    (raw_table
       (snd (run (download_of [("^GSPC"%string, [1; 2; 3; 4; 5]%float);
                               ("^IXIC"%string, [7; 8; 9]%float)])
                 ["S&P 500"; "NASDAQ"]%string true)))
  = Some ["S&P 500"; "NASDAQ"]%string.
Proof. vm_compute. repeat split. Qed.

(* ================================================================== *)
(** * Further properties of the script *)
(* ================================================================== *)

(** ** [fetch_data] *)

Lemma all_notices_app l1 l2 :
  forallb is_notice (l1 ++ l2) = forallb is_notice l1 && forallb is_notice l2.
Proof. apply forallb_app. Qed.

Lemma fetch_data_cases download ticker :
  exists data rendered,
    fetch_data download ticker [] = (Ok data, rendered) /\
    forallb notna data = true /\
    (rendered = [] \/
     (data = [] /\ exists e, rendered = [e] /\ is_notice e = true)).
Proof.
  unfold fetch_data, bind, emit, ret.
  destruct (df_empty (download ticker)).
  { eexists. eexists. split; [reflexivity|]. split; [reflexivity|].
    right. split; [reflexivity|]. eexists. split; reflexivity. }
  destruct (download ticker) as [columns|columns].
  - destruct (get_column "Adj Close" columns) as [adj|].
    { exists (dropna (ffill adj)), [].
      split; [reflexivity|]. split; [apply dropna_notna | now left]. }
    destruct (get_column "Close" columns) as [close|].
    { exists (dropna (ffill close)), [].
      split; [reflexivity|]. split; [apply dropna_notna | now left]. }
    eexists. eexists. split; [reflexivity|]. split; [reflexivity|].
    right. split; [reflexivity|]. eexists. split; reflexivity.
  - destruct (get_column2 ("Close"%string, ticker) columns) as [close|].
    { exists (dropna (ffill close)), [].
      split; [reflexivity|]. split; [apply dropna_notna | now left]. }
    eexists. eexists. split; [reflexivity|]. split; [reflexivity|].
    right. split; [reflexivity|]. eexists. split; reflexivity.
Qed.

Lemma fetch_data_appends download ticker page :
  fetch_data download ticker page
  = (fst (fetch_data download ticker []),
     page ++ snd (fetch_data download ticker [])).
Proof.
  unfold fetch_data, bind, emit, ret.
  destruct (df_empty (download ticker)); [reflexivity|].
  destruct (download ticker) as [columns|columns].
  - destruct (get_column "Adj Close" columns);
      [now rewrite app_nil_r|].
    destruct (get_column "Close" columns); [now rewrite app_nil_r|].
    reflexivity.
  - destruct (get_column2 _ columns); [now rewrite app_nil_r|]. reflexivity.
Qed.

Lemma fetch_data_fst_ok download ticker :
  exists data,
    fst (fetch_data download ticker []) = Ok data /\
    forallb notna data = true /\
    forallb is_notice (snd (fetch_data download ticker [])) = true.
Proof.
  destruct (fetch_data_cases download ticker) as (d & r & E & Hn & Hr).
  exists d. rewrite E. simpl. split; [reflexivity|]. split; [exact Hn|].
  destruct Hr as [-> | (_ & e & -> & He)]; simpl; [reflexivity|].
  now rewrite He.
Qed.

(** X1.  [fetch_data] never raises and never touches what is already on
    the page: it returns a series without nulls and renders at most one
    notice, and when it renders one the series it returns is empty. *)
Theorem fetch_data_total (download : string -> DataFrame) (ticker : string)
  (page : list Element) :
  exists data rendered,
    fetch_data download ticker page = (Ok data, page ++ rendered) /\
    forallb notna data = true /\
    (rendered = [] \/
     (data = [] /\ exists e, rendered = [e] /\ is_notice e = true)).
Proof.
  destruct (fetch_data_cases download ticker) as (data & rendered & E & Hn & Hr).
  exists data, rendered. rewrite fetch_data_appends, E. cbn [fst snd].
  split; [reflexivity|]. split; assumption.
Qed.

(** ** The Series Cleaner, applied twice *)

Lemma ffill_from_valid prev s :
  forallb notna s = true -> ffill_from prev s = s.
Proof.
  revert prev. induction s as [|x s IH]; intros prev H; simpl in *; auto.
  apply andb_true_iff in H as [Hx Hs].
  unfold isna, notna in *. destruct (is_nan x); [discriminate|].
  now rewrite IH.
Qed.

(** X2.  Cleaning is idempotent, and a series without nulls passes the
    cleaner unchanged: [ffill().dropna()] applied to its own output gives
    that output back. *)
Theorem cleaner_idempotent (raw : Series) :
  dropna (ffill (dropna (ffill raw))) = dropna (ffill raw) /\
  (forallb notna raw = true -> dropna (ffill raw) = raw).
Proof.
  assert (H : forall s, forallb notna s = true -> dropna (ffill s) = s).
  { intros s Hs. unfold ffill. rewrite ffill_from_valid by assumption.
    now apply dropna_id. }
  split; [apply H, dropna_notna | apply H].
Qed.

(** ** Sequencing *)

Lemma bind_Ok {A B} (m : App A) (k : A -> App B) page a page' :
  m page = (Ok a, page') -> bind m k page = k a page'.
Proof. intros E. unfold bind. now rewrite E. Qed.

Lemma bind_Raise {A B} (m : App A) (k : A -> App B) page e page' :
  m page = (Raise e, page') -> bind m k page = (Raise e, page').
Proof. intros E. unfold bind. now rewrite E. Qed.

(** ** The per-index loop *)

Lemma dict_get_In {V} (d : list (string * V)) key :
  In key (map fst d) -> exists v, dict_get d key = Ok v.
Proof.
  induction d as [|[k v] d IH]; simpl; [tauto|].
  intros H. destruct (String.eqb_spec k key) as [E|N]; [eauto|].
  destruct H as [H|H]; [contradiction|auto].
Qed.

Lemma dict_get_not_In {V} (d : list (string * V)) key :
  ~ In key (map fst d) -> dict_get d key = Raise KeyError.
Proof.
  induction d as [|[k v] d IH]; simpl; [reflexivity|].
  intros H. destruct (String.eqb_spec k key) as [E|N]; [tauto|].
  apply IH. tauto.
Qed.

Lemma dict_set_fresh {V} key (v : V) (d : list (string * V)) :
  ~ In key (map fst d) -> dict_set key v d = d ++ [(key, v)].
Proof.
  induction d as [|[k v'] d IH]; simpl; [reflexivity|].
  intros H. destruct (String.eqb_spec k key) as [E|N]; [tauto|].
  rewrite IH by tauto. reflexivity.
Qed.

Lemma index_body_key download index st page :
  In index (map fst INDEX_TICKERS) ->
  exists tr,
    name tr = index /\
    index_body download index st page
    = (Ok (if has_data download index
           then (fst st ++ [tr],
                 dict_set index (fetched download index) (snd st))
           else st),
       page ++ fetch_notices download index).
Proof.
  intros Hkey. destruct (dict_get_In _ _ Hkey) as [ticker E].
  destruct (fetch_data_fst_ok download ticker) as (data & Ed & _ & _).
  unfold index_body, has_data, fetched, fetch_notices, bind, lift, ret.
  rewrite E, fetch_data_appends, Ed.
  destruct data as [|x data]; cbn [empty negb].
  - exists {| name := index; y := [] |}. split; reflexivity.
  - eexists {| name := index; y := _ |}. split; reflexivity.
Qed.

Lemma index_loop download l :
  forall fig price_data page,
    incl l (map fst INDEX_TICKERS) ->
    NoDup l ->
    (forall i, In i l -> ~ In i (map fst price_data)) ->
    exists fig',
      map name fig' = filter (has_data download) l /\
      for_each l (index_body download) (fig, price_data) page
      = (Ok (fig ++ fig',
             price_data
             ++ map (fun i => (i, fetched download i))
                    (filter (has_data download) l)),
         page ++ flat_map (fetch_notices download) l).
Proof.
  induction l as [|a l IH]; intros fig pd page Hkeys Hnd Hfresh.
  - exists []. split; [reflexivity|]. simpl. unfold ret.
    now rewrite !app_nil_r.
  - destruct (index_body_key download a (fig, pd) page) as (tr & Hname & E).
    { apply Hkeys. now left. }
    apply NoDup_cons_iff in Hnd as [Ha Hl].
    assert (Hkeys' : incl l (map fst INDEX_TICKERS))
      by (intros i Hi; apply Hkeys; now right).
    cbn [for_each]. unfold bind at 1. rewrite E. cbn [filter flat_map].
    destruct (has_data download a); cbn [fst snd].
    + rewrite dict_set_fresh by (apply Hfresh; now left).
      destruct (IH (fig ++ [tr]) (pd ++ [(a, fetched download a)])
                  (page ++ fetch_notices download a) Hkeys' Hl)
        as (fig' & Hnames & Eloop).
      { intros i Hi. rewrite map_app, in_app_iff. simpl.
        intros [Hin | [Heq | []]]; [|subst i; contradiction].
        revert Hin. apply Hfresh. now right. }
      exists (tr :: fig'). split; [simpl; now rewrite Hnames, Hname|].
      rewrite Eloop. simpl. now rewrite <- !app_assoc.
    + destruct (IH fig pd (page ++ fetch_notices download a) Hkeys' Hl)
        as (fig' & Hnames & Eloop).
      { intros i Hi. apply Hfresh. now right. }
      exists fig'. split; [exact Hnames|].
      rewrite Eloop. now rewrite <- !app_assoc.
Qed.

(** ** The summary loop and the raw view *)

Lemma collect_summary price_data :
  Forall (fun item : string * Series => snd item <> []) price_data ->
  exists rows,
    map row_Index rows = map fst price_data /\
    forall page, collect price_data summary_item page = (Ok rows, page).
Proof.
  induction 1 as [|[index series] pd Hne _ IH].
  - exists []. split; reflexivity.
  - destruct IH as (rows & Hrows & E). simpl in Hne.
    destruct series as [|x rest]; [congruence|].
    eexists (_ :: rows). split; cycle 1.
    + intros page. cbn [collect].
      etransitivity.
      { eapply bind_Ok. unfold summary_item, bind, lift, ret.
        cbn [snd fst]. rewrite summary_stats_cons. reflexivity. }
      cbv beta. unfold ret at 1.
      exact (bind_Ok (collect pd summary_item) _ _ _ _ (E page)).
    + simpl. rewrite Hrows. reflexivity.
Qed.

Lemma raw_item_key download index page :
  In index (map fst INDEX_TICKERS) ->
  exists norm,
    raw_item download index page
    = (if has_data download index then Ok (index, norm)
       else Raise IndexError,
       page ++ fetch_notices download index).
Proof.
  intros Hkey. destruct (dict_get_In _ _ Hkey) as [ticker E].
  destruct (fetch_data_fst_ok download ticker) as (data & Ed & _ & _).
  unfold raw_item, has_data, fetched, fetch_notices, bind, lift, ret.
  rewrite E, fetch_data_appends, Ed.
  destruct data as [|x data]; cbn [empty negb].
  - exists []. reflexivity.
  - eexists. reflexivity.
Qed.

Lemma fetch_notices_are_notices download index :
  forallb is_notice (fetch_notices download index) = true.
Proof.
  unfold fetch_notices.
  destruct (dict_get INDEX_TICKERS index) as [ticker|]; [|reflexivity].
  now destruct (fetch_data_fst_ok download ticker) as (_ & _ & _ & H).
Qed.

Lemma flat_map_notices download l :
  forallb is_notice (flat_map (fetch_notices download) l) = true.
Proof.
  induction l as [|a l IH]; [reflexivity|]. simpl.
  now rewrite forallb_app, fetch_notices_are_notices, IH.
Qed.

Lemma collect_raw download l :
  forall page,
    incl l (map fst INDEX_TICKERS) ->
    exists rendered,
      forallb is_notice rendered = true /\
      if forallb (has_data download) l
      then exists columns,
             map fst columns = l /\
             collect l (raw_item download) page = (Ok columns, page ++ rendered)
      else collect l (raw_item download) page
           = (Raise IndexError, page ++ rendered).
Proof.
  induction l as [|a l IH]; intros page Hkeys.
  - exists []. split; [reflexivity|]. exists []. split; [reflexivity|].
    simpl. unfold ret. now rewrite app_nil_r.
  - destruct (raw_item_key download a page) as (norm & E).
    { apply Hkeys. now left. }
    assert (Hkeys' : incl l (map fst INDEX_TICKERS))
      by (intros i Hi; apply Hkeys; now right).
    cbn [forallb]. destruct (has_data download a); cbn [andb].
    + destruct (IH (page ++ fetch_notices download a) Hkeys')
        as (rendered & Hr & Hcase).
      exists (fetch_notices download a ++ rendered). split.
      { now rewrite forallb_app, fetch_notices_are_notices, Hr. }
      rewrite app_assoc.
      destruct (forallb (has_data download) l).
      * destruct Hcase as (columns & Hc & Ec).
        exists ((a, norm) :: columns). split; [simpl; now rewrite Hc|].
        cbn [collect].
        etransitivity; [exact (bind_Ok _ _ _ _ _ E)|].
        exact (bind_Ok (collect l (raw_item download))
                 (fun bs => ret ((a, norm) :: bs)) _ _ _ Ec).
      * cbn [collect].
        etransitivity; [exact (bind_Ok _ _ _ _ _ E)|].
        exact (bind_Raise _ _ _ _ _ Hcase).
    + exists (fetch_notices download a).
      split; [apply fetch_notices_are_notices|].
      cbn [collect]. exact (bind_Raise _ _ _ _ _ E).
Qed.

(** ** A whole run *)

Lemma has_data_fetched download index :
  has_data download index = true -> fetched download index <> [].
Proof.
  unfold has_data. destruct (fetched download index); [discriminate|].
  discriminate.
Qed.

Lemma map_fst_fetched download l :
  map fst (map (fun i => (i, fetched download i)) l) = l.
Proof. rewrite map_map. simpl. apply map_id. Qed.

Ltac run_step tac :=
  etransitivity; [eapply bind_Ok; tac | cbv beta zeta].

Lemma main_page download selected_indices show_raw :
  selected_indices <> [] ->
  NoDup selected_indices ->
  incl selected_indices (map fst INDEX_TICKERS) ->
  exists fig price_data rows,
    map name fig = filter (has_data download) selected_indices /\
    map fst price_data = filter (has_data download) selected_indices /\
    map row_Index rows = filter (has_data download) selected_indices /\
    main download selected_indices show_raw []
    = (if show_raw then raw_view download selected_indices else ret tt)
        (charts_and_summary
           (flat_map (fetch_notices download) selected_indices)
           fig price_data rows).
Proof.
  intros Hne Hnd Hkeys.
  destruct (index_loop download selected_indices [] []
              [st_subheader "Normalized Performance Chart"] Hkeys Hnd)
    as (fig & Hfig & Eloop); [intros i _ H; exact H|].
  set (pd := map (fun i => (i, fetched download i))
                 (filter (has_data download) selected_indices)) in *.
  destruct (collect_summary pd) as (rows & Hrows & Erows).
  { apply Forall_forall. intros item Hin. unfold pd in Hin.
    apply in_map_iff in Hin as (i & <- & Hi). apply filter_In in Hi as [_ Hi].
    now apply has_data_fetched. }
  exists fig, pd, rows.
  split; [exact Hfig|]. split; [apply map_fst_fetched|].
  split; [now rewrite Hrows; apply map_fst_fetched|].
  destruct selected_indices as [|a l]; [congruence|].
  unfold main.
  run_step reflexivity.
  run_step ltac:(exact Eloop).
  do 6 run_step reflexivity.
  run_step ltac:(apply Erows).
  do 2 run_step reflexivity.
  unfold raw_view, charts_and_summary. cbn [fst snd app].
  rewrite <- !app_assoc. reflexivity.
Qed.

Lemma chart_names_notices title rendered rest :
  forallb is_notice rendered = true ->
  chart_names title (rendered ++ rest) = chart_names title rest.
Proof.
  induction rendered as [|e r IH]; [reflexivity|]. simpl.
  intros H. apply andb_true_iff in H as [He Hr].
  destruct e; try discriminate; auto.
Qed.

Lemma summary_table_notices rendered rest :
  forallb is_notice rendered = true ->
  summary_table (rendered ++ rest) = summary_table rest.
Proof.
  induction rendered as [|e r IH]; [reflexivity|]. simpl.
  intros H. apply andb_true_iff in H as [He Hr].
  destruct e; try discriminate; auto.
Qed.

Lemma raw_table_notices rendered rest :
  forallb is_notice rendered = true ->
  raw_table (rendered ++ rest) = raw_table rest.
Proof.
  induction rendered as [|e r IH]; [reflexivity|]. simpl.
  intros H. apply andb_true_iff in H as [He Hr].
  destruct e; try discriminate; auto.
Qed.

Lemma notices_notices rendered :
  forallb is_notice rendered = true -> notices rendered = rendered.
Proof.
  unfold notices. induction rendered as [|e r IH]; [reflexivity|]. simpl.
  intros H. apply andb_true_iff in H as [He Hr]. now rewrite He, IH.
Qed.

Lemma map_name_cum_trace pd : map name (map cum_trace pd) = map fst pd.
Proof. rewrite map_map. reflexivity. Qed.

Lemma map_name_vol_trace pd : map name (map vol_trace pd) = map fst pd.
Proof. rewrite map_map. reflexivity. Qed.

(** What the charts and the summary of a page show, whatever follows
    them on the page. *)
Lemma charts_and_summary_shown rendered fig pd rows after :
  forallb is_notice rendered = true ->
  chart_names "Normalized Market Index Performance"
    (charts_and_summary rendered fig pd rows ++ after) = map name fig /\
  chart_names "Cumulative Returns Since Start Date"
    (charts_and_summary rendered fig pd rows ++ after) = map fst pd /\
  chart_names "20-Day Rolling Volatility"
    (charts_and_summary rendered fig pd rows ++ after) = map fst pd /\
  summary_table (charts_and_summary rendered fig pd rows ++ after)
  = Some rows /\
  raw_table (charts_and_summary rendered fig pd rows ++ after)
  = raw_table after.
Proof.
  intros Hr. unfold charts_and_summary.
  cbn [app chart_names summary_table raw_table].
  rewrite <- !app_assoc.
  repeat split;
    rewrite ?chart_names_notices, ?summary_table_notices, ?raw_table_notices
      by assumption;
    cbn [app chart_names summary_table raw_table];
    repeat match goal with
           | |- context [String.eqb ?a ?b] =>
               let v := eval vm_compute in (String.eqb a b) in
               change (String.eqb a b) with v
           end;
    cbv iota; rewrite ?map_name_cum_trace, ?map_name_vol_trace; reflexivity.
Qed.

Lemma notices_charts_and_summary rendered fig pd rows :
  forallb is_notice rendered = true ->
  notices (charts_and_summary rendered fig pd rows) = rendered.
Proof.
  intros Hr. unfold charts_and_summary, notices. cbn [filter is_notice].
  rewrite filter_app. cbn [filter is_notice]. rewrite app_nil_r.
  now apply notices_notices.
Qed.

(** X3.  Without the raw view the script never raises.  For a selection of
    distinct known indices, the indices whose fetch left data appear, in
    the order of the selection, on each of the three charts and in the
    summary table, and nowhere else; the only warnings and errors on the
    page are those of the fetches. *)
Theorem main_shows_indices_with_data (download : string -> DataFrame)
  (selected_indices : list string) :
  selected_indices <> [] ->
  NoDup selected_indices ->
  incl selected_indices (map fst INDEX_TICKERS) ->
  fst (run download selected_indices false) = Ok tt /\
  chart_names "Normalized Market Index Performance"
    (snd (run download selected_indices false))
  = filter (has_data download) selected_indices /\
  chart_names "Cumulative Returns Since Start Date"
    (snd (run download selected_indices false))
  = filter (has_data download) selected_indices /\
  chart_names "20-Day Rolling Volatility"
    (snd (run download selected_indices false))
  = filter (has_data download) selected_indices /\
  option_map (map row_Index)
    (summary_table (snd (run download selected_indices false)))
  = Some (filter (has_data download) selected_indices) /\
  notices (snd (run download selected_indices false))
  = flat_map (fetch_notices download) selected_indices.
Proof.
  intros Hne Hnd Hkeys.
  destruct (main_page download selected_indices false Hne Hnd Hkeys)
    as (fig & pd & rows & Hfig & Hpd & Hrows & E).
  unfold run. rewrite E. unfold ret. cbn [fst snd].
  pose proof (flat_map_notices download selected_indices) as Hn.
  destruct (charts_and_summary_shown _ fig pd rows [] Hn)
    as (H1 & H2 & H3 & H4 & _).
  rewrite app_nil_r in H1, H2, H3, H4.
  rewrite H1, H2, H3, H4, Hfig, Hpd. cbn [option_map]. rewrite Hrows.
  repeat split. now apply notices_charts_and_summary.
Qed.

Lemma main_shows_indices_with_data_witness :
  ["S&P 500"; "NASDAQ"]%string <> [] /\
  NoDup ["S&P 500"; "NASDAQ"]%string /\
  incl ["S&P 500"; "NASDAQ"]%string (map fst INDEX_TICKERS) /\
  fst (run (download_of [("^GSPC"%string, [1; 2; 3; 4; 5]%float)])
           ["S&P 500"; "NASDAQ"]%string false) = Ok tt /\
  chart_names "20-Day Rolling Volatility"
    (snd (run (download_of [("^GSPC"%string, [1; 2; 3; 4; 5]%float)])
              ["S&P 500"; "NASDAQ"]%string false))
  = ["S&P 500"%string].
Proof.
  assert (H1 : ["S&P 500"; "NASDAQ"]%string <> []) by discriminate.
  assert (H2 : NoDup ["S&P 500"; "NASDAQ"]%string).
  { repeat constructor; simpl; intuition discriminate. }
  assert (H3 : incl ["S&P 500"; "NASDAQ"]%string (map fst INDEX_TICKERS)).
  { intros i [<- | [<- | []]]; simpl; tauto. }
  destruct (main_shows_indices_with_data
              (download_of [("^GSPC"%string, [1; 2; 3; 4; 5]%float)])
              ["S&P 500"; "NASDAQ"]%string H1 H2 H3)
    as (Hok & _ & _ & Hvol & _).
  split; [exact H1|]. split; [exact H2|]. split; [exact H3|].
  split; [exact Hok | exact Hvol].
Defined.

(** X4.  With "Show raw data" ticked the raw view is all or nothing.  If
    every selected index has data, the run ends normally and the raw
    table has one column per selected index, in order.  If one of them
    has none, the run raises [IndexError] and no raw table is rendered.
    Either way the three charts and the summary table rendered before
    stay on the page. *)
Theorem raw_view_all_or_nothing (download : string -> DataFrame)
  (selected_indices : list string) :
  selected_indices <> [] ->
  NoDup selected_indices ->
  incl selected_indices (map fst INDEX_TICKERS) ->
  (if forallb (has_data download) selected_indices
   then fst (run download selected_indices true) = Ok tt /\
        option_map (map fst)
          (raw_table (snd (run download selected_indices true)))
        = Some selected_indices
   else fst (run download selected_indices true) = Raise IndexError /\
        raw_table (snd (run download selected_indices true)) = None) /\
  chart_names "Normalized Market Index Performance"
    (snd (run download selected_indices true))
  = filter (has_data download) selected_indices /\
  chart_names "Cumulative Returns Since Start Date"
    (snd (run download selected_indices true))
  = filter (has_data download) selected_indices /\
  chart_names "20-Day Rolling Volatility"
    (snd (run download selected_indices true))
  = filter (has_data download) selected_indices /\
  option_map (map row_Index)
    (summary_table (snd (run download selected_indices true)))
  = Some (filter (has_data download) selected_indices).
Proof.
  intros Hne Hnd Hkeys.
  destruct (main_page download selected_indices true Hne Hnd Hkeys)
    as (fig & pd & rows & Hfig & Hpd & Hrows & E).
  pose proof (flat_map_notices download selected_indices) as Hn.
  set (page := charts_and_summary
                 (flat_map (fetch_notices download) selected_indices)
                 fig pd rows) in *.
  destruct (collect_raw download selected_indices page Hkeys)
    as (rendered & Hr & Hcase).
  assert (Hshown : forall after,
            chart_names "Normalized Market Index Performance" (page ++ after)
            = filter (has_data download) selected_indices /\
            chart_names "Cumulative Returns Since Start Date" (page ++ after)
            = filter (has_data download) selected_indices /\
            chart_names "20-Day Rolling Volatility" (page ++ after)
            = filter (has_data download) selected_indices /\
            option_map (map row_Index) (summary_table (page ++ after))
            = Some (filter (has_data download) selected_indices) /\
            raw_table (page ++ after) = raw_table after).
  { intros after.
    destruct (charts_and_summary_shown _ fig pd rows after Hn)
      as (H1 & H2 & H3 & H4 & H5).
    fold page in H1, H2, H3, H4, H5.
    rewrite H1, H2, H3, H4, H5, Hfig, Hpd. cbn [option_map].
    rewrite Hrows. repeat split. }
  unfold run. rewrite E. unfold raw_view.
  destruct (forallb (has_data download) selected_indices).
  - destruct Hcase as (columns & Hc & Ec).
    rewrite (bind_Ok _ _ _ _ _ Ec). unfold bind, emit. cbn [fst snd].
    rewrite <- !app_assoc.
    destruct (Hshown (rendered ++ [st_dataframe_raw columns]
                      ++ [st_download_button "Download Normalized Data as CSV"]))
      as (H1 & H2 & H3 & H4 & H5).
    rewrite H1, H2, H3, H4, H5, raw_table_notices by assumption.
    cbn [app raw_table option_map]. rewrite Hc. repeat split.
  - rewrite (bind_Raise _ _ _ _ _ Hcase). cbn [fst snd].
    destruct (Hshown rendered) as (H1 & H2 & H3 & H4 & H5).
    rewrite H1, H2, H3, H4, H5.
    rewrite <- (app_nil_r rendered), raw_table_notices by assumption.
    repeat split.
Qed.

Lemma raw_view_all_or_nothing_witness :
  ["S&P 500"; "NASDAQ"]%string <> [] /\
  NoDup ["S&P 500"; "NASDAQ"]%string /\
  incl ["S&P 500"; "NASDAQ"]%string (map fst INDEX_TICKERS) /\
  fst (run (download_of [("^GSPC"%string, [1; 2; 3; 4; 5]%float);
                         ("^IXIC"%string, [7; 8; 9]%float)])
           ["S&P 500"; "NASDAQ"]%string true) = Ok tt /\
  option_map (map fst)
    (raw_table
       (snd (run (download_of [("^GSPC"%string, [1; 2; 3; 4; 5]%float);
                               ("^IXIC"%string, [7; 8; 9]%float)])
                 ["S&P 500"; "NASDAQ"]%string true)))
  = Some ["S&P 500"; "NASDAQ"]%string.
Proof.
  assert (H1 : ["S&P 500"; "NASDAQ"]%string <> []) by discriminate.
  assert (H2 : NoDup ["S&P 500"; "NASDAQ"]%string).
  { repeat constructor; simpl; intuition discriminate. }
  assert (H3 : incl ["S&P 500"; "NASDAQ"]%string (map fst INDEX_TICKERS)).
  { intros i [<- | [<- | []]]; simpl; tauto. }
  split; [exact H1|]. split; [exact H2|]. split; [exact H3|].
  exact (proj1 (raw_view_all_or_nothing
                  (download_of [("^GSPC"%string, [1; 2; 3; 4; 5]%float);
                                ("^IXIC"%string, [7; 8; 9]%float)])
                  ["S&P 500"; "NASDAQ"]%string H1 H2 H3)).
Defined.

Lemma cleaner_idempotent_witness :
  forallb notna [1; 2]%float = true /\
  dropna (ffill (dropna (ffill [nan; 10; nan; 12]%float)))
  = dropna (ffill [nan; 10; nan; 12]%float) /\
  dropna (ffill [1; 2]%float) = [1; 2]%float.
Proof.
  split; [reflexivity|]. split.
  - exact (proj1 (cleaner_idempotent [nan; 10; nan; 12]%float)).
  - exact (proj2 (cleaner_idempotent [1; 2]%float) eq_refl).
Defined.

(** ** Cumulative returns from the start *)

Lemma length_cum_returns s : length (cum_returns s) = length s.
Proof.
  unfold cum_returns.
  rewrite cumprod_notna by apply factors_notna, returns_notna.
  now rewrite length_map, length_np_cumprod, length_map, length_returns.
Qed.

(** X6.  The cumulative return series is aligned with the prices and, for
    every non-empty price series, starts at exactly 0; the chart plots it
    in percent, so the curve starts at 0 as well. *)
Theorem cum_returns_starts_at_zero (series : Series) (index : string) :
  series <> [] ->
  length (cum_returns series) = length series /\
  nth 0 (cum_returns series) nan = 0%float /\
  length (y (cum_trace (index, series))) = length series /\
  nth 0 (y (cum_trace (index, series))) nan = 0%float.
Proof.
  intros Hne. destruct series as [|x rest]; [congruence|].
  assert (H0 : nth 0 (cum_returns (x :: rest)) nan = 0%float).
  { rewrite nth_cum_returns by (simpl; lia). reflexivity. }
  split; [apply length_cum_returns|]. split; [exact H0|].
  unfold cum_trace. cbn [y snd].
  split; [now rewrite length_map, length_cum_returns|].
  rewrite (nth_indep _ nan ((fun c => (c * 100)%float) nan))
    by (rewrite length_map, length_cum_returns; simpl; lia).
  rewrite (map_nth (fun c => (c * 100)%float)), H0. reflexivity.
Qed.

Lemma cum_returns_starts_at_zero_witness :
  [100; 110; 99]%float <> [] /\
  length (cum_returns [100; 110; 99]%float) = 3 /\
  nth 0 (cum_returns [100; 110; 99]%float) nan = 0%float.
Proof.
  split; [discriminate|].
  destruct (cum_returns_starts_at_zero [100; 110; 99]%float "S&P 500")
    as (Hlen & H0 & _); [discriminate|].
  split; [exact Hlen | exact H0].
Defined.

(** ** A series that has two observations *)

(** X7.  With exactly two observations there is a single per-period
    return, and its sample standard deviation is undefined: whatever the
    two prices, the volatility of the summary row is null and is written
    [nan]. *)
Theorem two_observations_volatility_null (index : string) (p0 p1 : float) :
  exists st,
    summary_stats [p0; p1] = Ok st /\
    start_price st = p0 /\
    end_price st = p1 /\
    is_nan (volatility st) = true /\
    Volatility (summary_row index st) = "nan"%string.
Proof.
  eexists. split; [apply summary_stats_cons|].
  cbn [start_price end_price volatility summary_row Volatility last].
  split; [reflexivity|]. split; [reflexivity|].
  assert (H : (std (dropna (period_returns [p0; p1])) * 100)%float = nan).
  { unfold std. rewrite var_short; [reflexivity|].
    pose proof (length_dropna_le (dropna (period_returns [p0; p1]))).
    pose proof (length_dropna_le (period_returns [p0; p1])).
    rewrite length_period_returns in *. simpl in *. lia. }
  rewrite H. split; reflexivity.
Qed.

(** ** The order of the summary's sums *)


(** ** A flat price series *)

Lemma firstn_repeat_le (x : float) k n :
  k <= n -> firstn k (repeat x n) = repeat x k.
Proof.
  revert n. induction k as [|k IH]; intros [|n] H; simpl; auto; try lia.
  f_equal. apply IH. lia.
Qed.

Lemma skipn_repeat_sub (x : float) k n :
  skipn k (repeat x n) = repeat x (n - k).
Proof.
  revert n. induction k as [|k IH]; intros [|n]; simpl; auto.
Qed.

Lemma pct_from_flat c n :
  (c / c - 1)%float = 0%float -> pct_from c (repeat c n) = repeat 0%float n.
Proof.
  intros H. induction n as [|n IH]; simpl; [reflexivity|].
  now rewrite H, IH.
Qed.

Lemma returns_flat c n :
  is_finite c = true -> (c =? 0)%float = false ->
  returns (repeat c n) = repeat 0%float n.
Proof.
  intros Hfin Hnz. destruct n as [|n]; [reflexivity|].
  unfold returns. cbn [repeat pct_change].
  rewrite pct_from_flat by (rewrite (div_self c Hfin Hnz); reflexivity).
  unfold fillna. cbn [map]. rewrite map_repeat. reflexivity.
Qed.

Lemma cumprod_from_ones n :
  cumprod_from 1%float (repeat 1%float n) = repeat 1%float n.
Proof. induction n as [|n IH]; simpl; [reflexivity|]. now rewrite IH. Qed.

Lemma repeat_notna (x : float) n :
  notna x = true -> forallb notna (repeat x n) = true.
Proof. intros H. induction n; simpl; [reflexivity|]. now rewrite H. Qed.

(** X8.  For a flat series, every price equal to the same finite non-zero
    value, the normalized series is 100 throughout, and every return and
    every cumulative return is exactly 0. *)
Theorem flat_series_is_flat (c : float) (n : nat) :
  is_finite c = true ->
  (c =? 0)%float = false ->
  normalize_series (repeat c (S n)) = Ok (repeat 100%float (S n)) /\
  returns (repeat c (S n)) = repeat 0%float (S n) /\
  cum_returns (repeat c (S n)) = repeat 0%float (S n).
Proof.
  intros Hfin Hnz. split; [|split].
  - unfold normalize_series. cbn [repeat iloc_first].
    change (c :: repeat c n) with (repeat c (S n)).
    rewrite map_repeat, (div_self c Hfin Hnz). reflexivity.
  - now apply returns_flat.
  - unfold cum_returns. rewrite returns_flat by assumption.
    rewrite map_repeat. change (1 + 0)%float with 1%float.
    rewrite cumprod_notna by (now apply repeat_notna).
    cbn [repeat np_cumprod]. rewrite cumprod_from_ones.
    change (1%float :: repeat 1%float n) with (repeat 1%float (S n)).
    rewrite map_repeat. reflexivity.
Qed.

Lemma flat_series_is_flat_witness :
  is_finite 250%float = true /\
  (250 =? 0)%float = false /\
  normalize_series [250; 250; 250]%float = Ok [100; 100; 100]%float /\
  cum_returns [250; 250; 250]%float = [0; 0; 0]%float.
Proof.
  destruct (flat_series_is_flat 250%float 2 eq_refl eq_refl) as (Hn & _ & Hc).
  split; [reflexivity|]. split; [reflexivity|].
  split; [exact Hn | exact Hc].
Defined.

Lemma add_var_zero st :
  prev_value st = 0%float ->
  nobs (add_var st 0%float) = S (nobs st) /\
  num_consecutive_same_value (add_var st 0%float)
  = S (num_consecutive_same_value st) /\
  prev_value (add_var st 0%float) = 0%float.
Proof.
  intros Hprev. unfold add_var. change (isna 0%float) with false.
  cbv iota zeta. rewrite Hprev. change (0 =? 0)%float with true.
  simpl. auto.
Qed.

Lemma remove_var_zero st :
  nobs (remove_var st 0%float) = nobs st - 1 /\
  num_consecutive_same_value (remove_var st 0%float)
  = num_consecutive_same_value st /\
  prev_value (remove_var st 0%float) = prev_value st.
Proof.
  unfold remove_var. change (isna 0%float) with false. cbv iota zeta.
  destruct (nobs st - 1); simpl; auto.
Qed.

Lemma span_repeat (x : float) n a b :
  b <= n -> span (repeat x n) a b = repeat x (b - a).
Proof.
  intros Hb. unfold span. rewrite skipn_repeat_sub.
  apply firstn_repeat_le. lia.
Qed.

(** One position of the roll over zeros: the count saturates at the
    window size and every value seen so far was the same. *)
Lemma roll_step_flat n i st :
  i < n ->
  (i = 0 \/
   (nobs st = Nat.min i 20 /\
    num_consecutive_same_value st = i /\
    prev_value st = 0%float)) ->
  forall st',
    st' = (if Nat.eqb i 0 || Nat.leb i (i + 1 - 20)
           then fold_left add_var
                  (span (repeat 0%float n) (i + 1 - 20) (i + 1))
                  (fresh_var (nth (i + 1 - 20) (repeat 0%float n) nan))
           else fold_left add_var (span (repeat 0%float n) i (i + 1))
                  (fold_left remove_var
                     (span (repeat 0%float n) (i - 20) (i + 1 - 20)) st)) ->
    nobs st' = Nat.min (i + 1) 20 /\
    num_consecutive_same_value st' = i + 1 /\
    prev_value st' = 0%float.
Proof.
  intros Hi Hinv st' ->.
  destruct i as [|i].
  - cbn [Nat.eqb orb Nat.add Nat.sub].
    rewrite span_repeat by lia. cbn [Nat.sub repeat fold_left].
    rewrite nth_repeat_lt by lia.
    destruct (add_var_zero (fresh_var 0%float) eq_refl) as (H1 & H2 & H3).
    rewrite H1, H2, H3. simpl. auto.
  - destruct Hinv as [Hinv|(Hn & Hs & Hp)]; [discriminate|].
    cbn [Nat.eqb orb].
    destruct (Nat.leb_spec (S i) (S i + 1 - 20)) as [Hle|_]; [lia|].
    rewrite (span_repeat _ n (S i) (S i + 1)) by lia.
    replace (S i + 1 - S i) with 1 by lia. cbn [repeat fold_left].
    rewrite (span_repeat _ n (S i - 20) (S i + 1 - 20)) by lia.
    destruct (Nat.le_gt_cases 20 (S i)) as [Hbig|Hsmall].
    + replace (S i + 1 - 20 - (S i - 20)) with 1 by lia.
      cbn [repeat fold_left].
      destruct (remove_var_zero st) as (R1 & R2 & R3).
      destruct (add_var_zero (remove_var st 0%float)) as (A1 & A2 & A3);
        [now rewrite R3|].
      rewrite A1, A2, A3, R1, R2, Hn, Hs. repeat split; lia.
    + replace (S i + 1 - 20 - (S i - 20)) with 0 by lia.
      cbn [repeat fold_left].
      destruct (add_var_zero st Hp) as (A1 & A2 & A3).
      rewrite A1, A2, A3, Hn, Hs. repeat split; lia.
Qed.

Lemma roll_var_from_flat n :
  forall todo i st k,
    i + todo <= n ->
    (i = 0 \/
     (nobs st = Nat.min i 20 /\
      num_consecutive_same_value st = i /\
      prev_value st = 0%float)) ->
    k < todo ->
    nth k (roll_var_from 20 20 (repeat 0%float n) i todo st) nan
    = if Nat.ltb (i + k) 19 then nan else 0%float.
Proof.
  induction todo as [|todo IH]; intros i st k Hn Hinv Hk; [lia|].
  cbn [roll_var_from]. cbv zeta.
  destruct (roll_step_flat n i st ltac:(lia) Hinv _ eq_refl) as (H1 & H2 & H3).
  destruct k as [|k].
  - cbn [nth]. unfold calc_var. rewrite H1, H2. rewrite Nat.add_0_r.
    destruct (Nat.ltb_spec i 19) as [Hlt|Hge].
    + destruct (Nat.leb_spec 20 (Nat.min (i + 1) 20)); [lia|reflexivity].
    + replace (Nat.min (i + 1) 20) with 20 by lia.
      assert (E : Nat.leb 20 (i + 1) = true) by (apply Nat.leb_le; lia).
      rewrite E. reflexivity.
  - cbn [nth]. rewrite IH; [|lia| |lia].
    + replace (S i + k) with (i + S k) by lia. reflexivity.
    + right. replace (S i) with (i + 1) by lia. auto.
Qed.

(** X9.  For a flat series the rolling volatility is null on the first 19
    entries and exactly 0 from the 20th on. *)
Theorem flat_series_volatility (c : float) (n i : nat) :
  is_finite c = true ->
  (c =? 0)%float = false ->
  i < n ->
  nth i (rolling_vol (repeat c n)) nan
  = if Nat.ltb i 19 then nan else 0%float.
Proof.
  intros Hfin Hnz Hi.
  rewrite nth_rolling_vol, returns_flat by assumption.
  rewrite map_repeat. change (if is_infinity 0 then nan else 0%float)
    with 0%float.
  unfold roll_var. rewrite repeat_length.
  rewrite roll_var_from_flat by (auto; lia).
  rewrite Nat.add_0_l.
  destruct (Nat.ltb i 19); vm_compute; reflexivity.
Qed.

Lemma flat_series_volatility_witness :
  is_finite 250%float = true /\
  (250 =? 0)%float = false /\
  21 < 25 /\
  nth 21 (rolling_vol (repeat 250%float 25)) nan = 0%float.
Proof.
  split; [reflexivity|]. split; [reflexivity|]. split; [lia|].
  exact (flat_series_volatility 250%float 25 21 eq_refl eq_refl
           ltac:(lia)).
Defined.

(** ** Numbers as written in the summary table *)

Lemma all_digits_append a b :
  all_digits (String.append a b) = all_digits a && all_digits b.
Proof.
  induction a as [|c a IH]; simpl; [reflexivity|].
  now rewrite IH, andb_assoc.
Qed.

Lemma length_append a b :
  String.length (String.append a b) = String.length a + String.length b.
Proof. induction a as [|c a IH]; simpl; [reflexivity|]. now rewrite IH. Qed.

Lemma digit_is_digit k :
  (0 <= k < 10)%Z -> all_digits (Fmt.digit k) = true.
Proof.
  intros Hk. unfold Fmt.digit, all_digits, is_digit.
  rewrite nat_ascii_embedding by lia.
  rewrite andb_true_r. apply andb_true_iff. split; apply Nat.leb_le; lia.
Qed.

Lemma low_digits_spec d n :
  String.length (Fmt.low_digits d n) = d /\
  all_digits (Fmt.low_digits d n) = true.
Proof.
  revert n. induction d as [|d IH]; intros n; simpl; [split; reflexivity|].
  destruct (IH (n / 10)%Z) as [Hlen Hdig].
  rewrite length_append, all_digits_append, Hlen, Hdig.
  rewrite digit_is_digit by (apply Z.mod_pos_bound; lia).
  split; [simpl; lia | reflexivity].
Qed.

Lemma string_of_uint_digits u :
  all_digits (DecimalString.NilEmpty.string_of_uint u) = true.
Proof. induction u; simpl; auto. Qed.

Lemma string_of_Z_digits n :
  all_digits (Fmt.string_of_Z n) = true /\ Fmt.string_of_Z n <> EmptyString.
Proof.
  unfold Fmt.string_of_Z, DecimalString.NilZero.string_of_uint.
  destruct (N.to_uint (Z.to_N n)) eqn:E;
    (split; [reflexivity || apply (string_of_uint_digits (_ _)) | ]);
    simpl; discriminate.
Qed.

(** X10.  A finite number is written in fixed-point form: an optional
    minus sign, at least one digit, a point, and exactly as many digits
    as the format asks for, two for prices and total return and three
    for the average return and the volatility of the summary row. *)
Theorem format_f_fixed_point (d : nat) (x : float) :
  is_finite x = true ->
  exists minus whole frac,
    Fmt.format_f (S d) x
    = String.append (Fmt.sign minus)
        (String.append whole (String.append "." frac)) /\
    whole <> EmptyString /\
    all_digits whole = true /\
    String.length frac = S d /\
    all_digits frac = true.
Proof.
  rewrite is_finite_SF. unfold Fmt.format_f, Fmt.fixed.
  destruct (Prim2SF x) as [s|s| |s m e]; try discriminate; intros _.
  - exists s. eexists. eexists. split; [reflexivity|].
    destruct (string_of_Z_digits (0 / 10 ^ Z.of_nat (S d))) as [Hd Hne].
    destruct (low_digits_spec (S d) (0 mod 10 ^ Z.of_nat (S d))) as [Hl Hf].
    repeat split; assumption.
  - exists s. eexists. eexists. split; [reflexivity|].
    destruct (string_of_Z_digits
                (Fmt.scaled (S d) m e / 10 ^ Z.of_nat (S d))) as [Hd Hne].
    destruct (low_digits_spec (S d)
                (Fmt.scaled (S d) m e mod 10 ^ Z.of_nat (S d))) as [Hl Hf].
    repeat split; assumption.
Qed.

Lemma format_f_fixed_point_witness :
  is_finite 1234.5%float = true /\
  exists minus whole frac,
    Fmt.format_f 2 1234.5%float
    = String.append (Fmt.sign minus)
        (String.append whole (String.append "." frac)) /\
    String.length frac = 2.
Proof.
  split; [reflexivity|].
  destruct (format_f_fixed_point 1 1234.5%float eq_refl)
    as (minus & whole & frac & E & _ & _ & Hl & _).
  exists minus, whole, frac. split; [exact E | exact Hl].
Defined.

(** ** When the cleaner leaves nothing *)

Lemma leading_nulls_le raw : leading_nulls raw <= length raw.
Proof.
  induction raw as [|x r IH]; simpl; [lia|]. destruct (isna x); lia.
Qed.

Lemma leading_nulls_all raw :
  Nat.eqb (leading_nulls raw) (length raw) = forallb isna raw.
Proof.
  induction raw as [|x r IH]; [reflexivity|]. simpl.
  destruct (isna x); simpl; [exact IH|reflexivity].
Qed.

(** X11.  The cleaner returns the empty series exactly when every raw
    price is null (an empty column included); one non-null price is
    enough for the index to have data. *)
Theorem cleaner_empty_iff_all_null (raw : Series) :
  empty (dropna (ffill raw)) = forallb isna raw.
Proof.
  rewrite <- leading_nulls_all.
  pose proof (length_dropna_ffill raw) as Hlen.
  pose proof (leading_nulls_le raw) as Hle.
  destruct (dropna (ffill raw)) as [|x r]; simpl in *.
  - symmetry. apply Nat.eqb_eq. lia.
  - symmetry. apply Nat.eqb_neq. lia.
Qed.
